(** * S.I.L.K. agent mode: a shallow embedding of [agent.js]

    The file follows the source top to bottom: the JavaScript values and
    string primitives the orchestrator relies on, [JSON.parse], the browser
    state the run reads and writes, then [fetchAPIBackground], the terminal
    bubble helpers and [runAgentMode], and finally the properties of the
    pipeline. *)

From Stdlib Require Import List NArith ZArith Bool String Ascii Lia.
From Stdlib Require DecimalN.
Import ListNotations.

Set Implicit Arguments.
Set Warnings "-register-all".

(* ================================================================== *)
(** ** JavaScript strings *)

(** A JavaScript string is a sequence of UTF-16 code units. *)
Definition codeunit := N.
Definition JSString := list codeunit.

Definition cu_of_ascii (a : ascii) : codeunit := N_of_ascii a.

(** [js "abc"] is the JavaScript string whose code units are the bytes of an
    ASCII literal; every literal of [agent.js] is ASCII. *)
Fixpoint js (s : string) : JSString :=
  match s with
  | EmptyString => []
  | String a r => cu_of_ascii a :: js r
  end.

Fixpoint str_eqb (a b : JSString) : bool :=
  match a, b with
  | [], [] => true
  | x :: a', y :: b' => N.eqb x y && str_eqb a' b'
  | _, _ => false
  end.

(** [starts_with p s]: [p] is a prefix of [s]. *)
Fixpoint starts_with (p s : JSString) : bool :=
  match p, s with
  | [], _ => true
  | x :: p', y :: s' => N.eqb x y && starts_with p' s'
  | _ :: _, [] => false
  end.

(** [strip_prefix p s] is the rest of [s] after the prefix [p]. *)
Fixpoint strip_prefix (p s : JSString) : option JSString :=
  match p, s with
  | [], _ => Some s
  | x :: p', y :: s' => if N.eqb x y then strip_prefix p' s' else None
  | _ :: _, [] => None
  end.

(** [includes s p]: [p] occurs in [s] ([String.prototype.includes]). *)
Fixpoint includes (s p : JSString) : bool :=
  starts_with p s ||
  match s with
  | [] => false
  | _ :: s' => includes s' p
  end.

(** The code units [String.prototype.trim] removes: WhiteSpace and
    LineTerminator of ECMA-262. *)
Definition is_js_space (c : codeunit) : bool :=
  ((9 <=? c) && (c <=? 13) || (c =? 32) || (c =? 160) || (c =? 5760)
   || (8192 <=? c) && (c <=? 8202) || (c =? 8232) || (c =? 8233)
   || (c =? 8239) || (c =? 8287) || (c =? 12288) || (c =? 65279))%N.

Fixpoint trimStart (s : JSString) : JSString :=
  match s with
  | c :: r => if is_js_space c then trimStart r else s
  | [] => []
  end.

Fixpoint trimEnd (s : JSString) : JSString :=
  match s with
  | [] => []
  | c :: r =>
      match trimEnd r with
      | [] => if is_js_space c then [] else [c]
      | r' => c :: r'
      end
  end.

Definition trim (s : JSString) : JSString := trimEnd (trimStart s).

(** [s.replace(/pat/g, '')] for a pattern without metacharacters: every
    occurrence of [pat], scanning left to right without overlap, is dropped.
    [skip] counts the code units of a match still to be consumed. *)
Fixpoint remove_all_from (pat s : JSString) (skip : nat) : JSString :=
  match s with
  | [] => []
  | c :: r =>
      match skip with
      | S k => remove_all_from pat r k
      | O =>
          if starts_with pat s
          then remove_all_from pat r (Nat.pred (List.length pat))
          else c :: remove_all_from pat r 0
      end
  end.

Definition remove_all (pat s : JSString) : JSString :=
  match pat with
  | [] => s
  | _ => remove_all_from pat s 0
  end.

(** Decimal digits of an integer, as [Number.prototype.toString] prints the
    integers below 10^21. *)
Fixpoint uint_digits (d : Decimal.uint) : JSString :=
  match d with
  | Decimal.Nil => []
  | Decimal.D0 r => 48%N :: uint_digits r
  | Decimal.D1 r => 49%N :: uint_digits r
  | Decimal.D2 r => 50%N :: uint_digits r
  | Decimal.D3 r => 51%N :: uint_digits r
  | Decimal.D4 r => 52%N :: uint_digits r
  | Decimal.D5 r => 53%N :: uint_digits r
  | Decimal.D6 r => 54%N :: uint_digits r
  | Decimal.D7 r => 55%N :: uint_digits r
  | Decimal.D8 r => 56%N :: uint_digits r
  | Decimal.D9 r => 57%N :: uint_digits r
  end.

Definition N_to_js (n : N) : JSString := uint_digits (N.to_uint n).

Definition Z_to_js (z : Z) : JSString :=
  match z with
  | Zneg p => 45%N :: N_to_js (Npos p)
  | _ => N_to_js (Z.to_N z)
  end.

(* ================================================================== *)
(** ** JavaScript values *)

(** [agent.js] never computes with a number taken from a model reply: it only
    tests it for truthiness and turns it into text.  The doubles behind JSON
    number literals are therefore kept abstract, behind the three operations
    the program needs. *)
Class JSNumbers := {
  Num : Type;
  (** the Number denoted by a JSON number literal *)
  num_of_literal : JSString -> Num;
  (** ToBoolean: false for +0, -0 *)
  num_truthy : Num -> bool;
  (** Number::toString *)
  num_to_string : Num -> JSString
}.

Section Model.
Context {NM : JSNumbers}.

(** The values that reach the orchestrator: what [JSON.parse] and
    [Response.json] build, plus [undefined].  An object keeps its members in
    source order; a later member of the same name overrides an earlier one. *)
Inductive JSValue :=
| JUndefined
| JNull
| JBool (b : bool)
| JNum (n : Num)
| JStr (s : JSString)
| JArr (elems : list JSValue)
| JObj (members : list (JSString * JSValue)).

(** ToBoolean. *)
Definition truthy (v : JSValue) : bool :=
  match v with
  | JUndefined | JNull => false
  | JBool b => b
  | JNum n => num_truthy n
  | JStr s => match s with [] => false | _ => true end
  | JArr _ | JObj _ => true
  end.

(** [a || b]. *)
Definition js_or (a b : JSValue) : JSValue := if truthy a then a else b.

(** Own property lookup in member order: the last member named [k] wins. *)
Fixpoint own_property (k : JSString) (ms : list (JSString * JSValue))
  : option JSValue :=
  match ms with
  | [] => None
  | (k', v) :: r =>
      match own_property k r with
      | Some w => Some w
      | None => if str_eqb k k' then Some v else None
      end
  end.

(** [v.k] on a non-nullish [v], for a name [k] that no prototype defines
    (the names [agent.js] reads: taskA, taskB, candidates, content, parts,
    text, error, message). *)
Definition get_field (v : JSValue) (k : JSString) : JSValue :=
  match v with
  | JObj ms => match own_property k ms with Some w => w | None => JUndefined end
  | _ => JUndefined
  end.

(** [v?.k]. *)
Definition opt_field (v : JSValue) (k : JSString) : JSValue :=
  match v with
  | JUndefined | JNull => JUndefined
  | _ => get_field v k
  end.

(** [v?.[0]]: the first element of an array, the first code unit of a
    string, the member named "0" of an object. *)
Definition opt_index0 (v : JSValue) : JSValue :=
  match v with
  | JArr (x :: _) => x
  | JStr (c :: _) => JStr [c]
  | JObj ms => match own_property (js "0") ms with Some w => w | None => JUndefined end
  | _ => JUndefined
  end.

(** ToString, as [String(v)], a template literal and [new Error(v)] apply it.
    [None] is the TypeError of ToPrimitive: an object whose own member
    [toString] shadows [Object.prototype.toString] with a JSON value (never
    callable) cannot be converted, because [valueOf] then yields no
    primitive either. *)
Fixpoint ToString (v : JSValue) : option JSString :=
  match v with
  | JUndefined => Some (js "undefined")
  | JNull => Some (js "null")
  | JBool true => Some (js "true")
  | JBool false => Some (js "false")
  | JNum n => Some (num_to_string n)
  | JStr s => Some s
  | JArr l =>
      (fix join (first : bool) (l : list JSValue) : option JSString :=
         match l with
         | [] => Some []
         | x :: r =>
             let sx := match x with
                       | JUndefined | JNull => Some []
                       | _ => ToString x
                       end in
             match sx, join false r with
             | Some a, Some b => Some ((if first then [] else [44%N]) ++ a ++ b)
             | _, _ => None
             end
         end) true l
  | JObj ms =>
      match own_property (js "toString") ms with
      | Some _ => None
      | None => Some (js "[object Object]")
      end
  end.


(* ================================================================== *)
(** ** JSON.parse *)

(** The four code units JSON allows between tokens. *)
Definition is_json_ws (c : codeunit) : bool :=
  ((c =? 32) || (c =? 9) || (c =? 10) || (c =? 13))%N.

Fixpoint skip_ws (s : JSString) : JSString :=
  match s with
  | c :: r => if is_json_ws c then skip_ws r else s
  | [] => []
  end.

Definition is_digit (c : codeunit) : bool := ((48 <=? c) && (c <=? 57))%N.

(** The longest run of digits at the head of [s], and what follows it. *)
Fixpoint span_digits (s : JSString) : JSString * JSString :=
  match s with
  | c :: r =>
      if is_digit c
      then let (ds, r') := span_digits r in (c :: ds, r')
      else ([], s)
  | [] => ([], [])
  end.

Definition hex_val (c : codeunit) : option N :=
  (if (48 <=? c) && (c <=? 57) then Some (c - 48)
   else if (65 <=? c) && (c <=? 70) then Some (c - 55)
   else if (97 <=? c) && (c <=? 102) then Some (c - 87)
   else None)%N.

Definition hex4 (a b c d : codeunit) : option codeunit :=
  match hex_val a, hex_val b, hex_val c, hex_val d with
  | Some x, Some y, Some z, Some w => Some (((x * 16 + y) * 16 + z) * 16 + w)%N
  | _, _, _, _ => None
  end.

(** The character a one-letter escape stands for. *)
Definition unescape (e : codeunit) : option codeunit :=
  (if e =? 34 then Some 34          (* quotation mark *)
   else if e =? 92 then Some 92     (* reverse solidus *)
   else if e =? 47 then Some 47     (* solidus *)
   else if e =? 98 then Some 8      (* b: backspace *)
   else if e =? 102 then Some 12    (* f: form feed *)
   else if e =? 110 then Some 10    (* n: line feed *)
   else if e =? 114 then Some 13    (* r: carriage return *)
   else if e =? 116 then Some 9     (* t: tab *)
   else None)%N.

(** The characters of a string literal after its opening quote, up to and
    including the closing quote. *)
Fixpoint parse_string_chars (s : JSString) : option (JSString * JSString) :=
  match s with
  | [] => None
  | c :: r =>
      if (c =? 34)%N then Some ([], r)
      else if (c =? 92)%N then
        match r with
        | [] => None
        | e :: r1 =>
            if (e =? 117)%N then
              match r1 with
              | h1 :: h2 :: h3 :: h4 :: r2 =>
                  match hex4 h1 h2 h3 h4, parse_string_chars r2 with
                  | Some u, Some (cs, rest) => Some (u :: cs, rest)
                  | _, _ => None
                  end
              | _ => None
              end
            else
              match unescape e, parse_string_chars r1 with
              | Some u, Some (cs, rest) => Some (u :: cs, rest)
              | _, _ => None
              end
        end
      else if (c <? 32)%N then None
      else
        match parse_string_chars r with
        | Some (cs, rest) => Some (c :: cs, rest)
        | None => None
        end
  end.

(** A number literal: an optional minus sign; an integer part that is a
    single 0 or starts with a non-zero digit; an optional fraction (a point
    and at least one digit); an optional exponent (e or E, an optional sign,
    at least one digit).  Each scanner returns the text it read and what
    follows it. *)
Definition scan_int (s : JSString) : option (JSString * JSString) :=
  match s with
  | c :: r =>
      if (c =? 48)%N then Some ([c], r)
      else if is_digit c then let (ds, r') := span_digits r in Some (c :: ds, r')
      else None
  | [] => None
  end.

Definition scan_frac (s : JSString) : option (JSString * JSString) :=
  match s with
  | c :: r =>
      if (c =? 46)%N then
        match span_digits r with
        | ([], _) => None
        | (ds, r') => Some (c :: ds, r')
        end
      else Some ([], s)
  | [] => Some ([], [])
  end.

Definition scan_exp (s : JSString) : option (JSString * JSString) :=
  match s with
  | c :: r =>
      if ((c =? 101) || (c =? 69))%N then
        let '(sign, r1) :=
          match r with
          | g :: r0 => if ((g =? 43) || (g =? 45))%N then ([g], r0) else ([], r)
          | [] => ([], r)
          end in
        match span_digits r1 with
        | ([], _) => None
        | (ds, r') => Some (c :: sign ++ ds, r')
        end
      else Some ([], s)
  | [] => Some ([], [])
  end.

Definition scan_number (s : JSString) : option (JSString * JSString) :=
  let '(minus, s1) :=
    match s with
    | c :: r => if (c =? 45)%N then ([c], r) else ([], s)
    | [] => ([], s)
    end in
  match scan_int s1 with
  | None => None
  | Some (i, s2) =>
      match scan_frac s2 with
      | None => None
      | Some (f, s3) =>
          match scan_exp s3 with
          | None => None
          | Some (e, s4) => Some (minus ++ i ++ f ++ e, s4)
          end
      end
  end.

Inductive PResult :=
| POk (v : JSValue) (rest : JSString)
| PSyntaxError
| PFuel.

(** Recursive descent.  [parse_value] reads one value after optional white
    space; [parse_elements] and [parse_members] read what follows an opening
    bracket or brace that is not closed at once.  [fuel] bounds the depth of
    the calls; [JSON_parse_fuel] shows the bound of [JSON_parse] is never
    reached. *)
Fixpoint parse_value (fuel : nat) (s : JSString) : PResult :=
  match fuel with
  | O => PFuel
  | S f =>
      match skip_ws s with
      | [] => PSyntaxError
      | c :: r =>
          if (c =? 123)%N then
            match skip_ws r with
            | d :: r' => if (d =? 125)%N then POk (JObj []) r'
                         else parse_members f r []
            | [] => PSyntaxError
            end
          else if (c =? 91)%N then
            match skip_ws r with
            | d :: r' => if (d =? 93)%N then POk (JArr []) r'
                         else parse_elements f r []
            | [] => PSyntaxError
            end
          else if (c =? 34)%N then
            match parse_string_chars r with
            | Some (str, r') => POk (JStr str) r'
            | None => PSyntaxError
            end
          else
            match strip_prefix (js "true") (c :: r),
                  strip_prefix (js "false") (c :: r),
                  strip_prefix (js "null") (c :: r) with
            | Some r', _, _ => POk (JBool true) r'
            | _, Some r', _ => POk (JBool false) r'
            | _, _, Some r' => POk JNull r'
            | None, None, None =>
                match scan_number (c :: r) with
                | Some (lit, r') => POk (JNum (num_of_literal lit)) r'
                | None => PSyntaxError
                end
            end
      end
  end
with parse_elements (fuel : nat) (s : JSString) (acc : list JSValue) : PResult :=
  match fuel with
  | O => PFuel
  | S f =>
      match parse_value f s with
      | POk v r =>
          match skip_ws r with
          | d :: r' =>
              if (d =? 44)%N then parse_elements f r' (v :: acc)
              else if (d =? 93)%N then POk (JArr (rev (v :: acc))) r'
              else PSyntaxError
          | [] => PSyntaxError
          end
      | e => e
      end
  end
with parse_members (fuel : nat) (s : JSString)
                   (acc : list (JSString * JSValue)) : PResult :=
  match fuel with
  | O => PFuel
  | S f =>
      match skip_ws s with
      | q :: r =>
          if (q =? 34)%N then
            match parse_string_chars r with
            | Some (k, r1) =>
                match skip_ws r1 with
                | d :: r2 =>
                    if (d =? 58)%N then
                      match parse_value f r2 with
                      | POk v r3 =>
                          match skip_ws r3 with
                          | e :: r4 =>
                              if (e =? 44)%N
                              then parse_members f r4 ((k, v) :: acc)
                              else if (e =? 125)%N
                              then POk (JObj (rev ((k, v) :: acc))) r4
                              else PSyntaxError
                          | [] => PSyntaxError
                          end
                      | e => e
                      end
                    else PSyntaxError
                | [] => PSyntaxError
                end
            | None => PSyntaxError
            end
          else PSyntaxError
      | [] => PSyntaxError
      end
  end.

(** [JSON.parse(text)]: one value, white space around it, nothing else.
    [None] is the SyntaxError. *)
Definition JSON_parse (text : JSString) : option JSValue :=
  match parse_value (2 * List.length text + 1) text with
  | POk v rest => match skip_ws rest with [] => Some v | _ => None end
  | _ => None
  end.

(* ================================================================== *)
(** ** The browser state the run reads and writes *)

(** A chat turn as [runAgentMode] builds it: [{role, content, ts}] and, for a
    user turn sent with a picture, [imageBase64] and [imageDataUrl]
    ([JUndefined] when the property is absent). *)
Record Message := {
  role : JSValue;
  content : JSValue;
  ts : Z;
  imageBase64 : JSValue;
  imageDataUrl : JSValue
}.

(** [state.pendingImage]. *)
Record PendingImage := {
  base64 : JSValue;
  dataUrl : JSValue
}.

(** A terminal bubble of the messages container: the [div] that
    [createTerminalBubble] builds, with its id, the text of its
    [.term-content] child and whether that child is coloured
    [var(--danger)]. *)
Record TermBubble := {
  tb_id : JSString;
  tb_text : JSString;
  tb_danger : bool
}.

(** The four places [runAgentMode] calls [fetchAPIBackground] from. *)
Inductive Site := Planner | WorkerA | WorkerB | Synthesizer.

Definition site_eqb (a b : Site) : bool :=
  match a, b with
  | Planner, Planner | WorkerA, WorkerA | WorkerB, WorkerB
  | Synthesizer, Synthesizer => true
  | _, _ => false
  end.

(** One entry of [parts]. *)
Inductive Part :=
| TextPart (text : JSString)
| InlineData (mimeType data : JSString).

(** One entry of [contents]. *)
Record Turn := {
  turn_role : JSString;
  parts : list Part
}.

(** What [fetch] is given: the URL and the object that [JSON.stringify]
    serialises into the body. *)
Record Request := {
  url : JSString;
  method : JSString;
  headers : list (JSString * JSString);
  contents : list Turn;
  safetySettings : list (JSString * JSString);
  temperature : JSString;      (* the literal 0.9 *)
  maxOutputTokens : N
}.

(** What [res.json()] settles to: the parsed body, or a rejection when the
    body is not JSON. *)
Inductive Body :=
| BodyValue (v : JSValue)
| BodyInvalid (message : JSString).

Record Response := {
  status : N;
  body : Body
}.

(** [res.ok]: the status is in the range 200-299. *)
Definition ok (res : Response) : bool :=
  ((200 <=? status res) && (status res <=? 299))%N.

(** How the promise of [fetch] settles. *)
Inductive NetOutcome :=
| NetRejected (message : JSString)
| NetResponse (res : Response).

(** What the engine raises by itself in this file. *)
Inductive Fault :=
| CannotConvert        (* ToPrimitive found no primitive *)
| MatchNotAFunction.   (* imageBase64.match on a value that has no match *)

(** A thrown value.  All of them carry a [message] string. *)
Inductive Exn :=
| ErrorObj (message : JSString)      (* new Error(message) *)
| TypeErrorOf (f : Fault)            (* a TypeError of the engine *)
| Rejection (message : JSString).    (* the reason of a rejected platform promise *)

(** [err.message]; the engine's own messages in V8's wording. *)
Definition exn_message (e : Exn) : JSString :=
  match e with
  | ErrorObj m => m
  | TypeErrorOf CannotConvert => js "Cannot convert object to primitive value"
  | TypeErrorOf MatchNotAFunction => js "imageBase64.match is not a function"
  | Rejection m => m
  end.

(** A turn of [history]: [{role, content}]. *)
Record HistTurn := {
  h_role : JSValue;
  h_content : JSValue
}.

(** The arguments of one call of [fetchAPIBackground]. *)
Record CallArgs := {
  arg_history : list HistTurn;
  arg_newUserText : JSValue;
  arg_imageBase64 : JSValue;
  arg_systemPrompt : JSValue;
  arg_modelOverride : JSValue
}.

(** Everything the run does to the world outside, in the order it does it. *)
Inductive Event :=
| EvAppendMessage (m : Message)
| EvClearImage
| EvSendDisabled (b : bool)
| EvStreaming (b : bool)
| EvCreateTerminal (id : JSString)
| EvUpdateTerminal (id text : JSString) (isError : bool)
| EvRemoveTerminal (id : JSString)
| EvCall (site : Site) (args : CallArgs)
| EvFetch (site : Site) (req : Request)
| EvToast (message kind : JSString)
| EvConsoleError (message : JSString).

(** The state a run reads and writes.  A run is followed from its call to
    its end as the only writer: what other handlers may do to the page while
    it awaits the network is not part of the picture. *)
Record World := {
  chat_messages : list Message;          (* currentChat().messages *)
  pendingImage : option PendingImage;    (* state.pendingImage *)
  isStreaming : bool;                    (* state.isStreaming *)
  send_disabled : bool;                  (* #send-btn .disabled *)
  document : list TermBubble;            (* terminal bubbles, in tree order *)
  ls_apikey : option JSString;           (* localStorage, aura:apikey *)
  trace : list Event
}.

(** The three readings of [Date.now()] in a run. *)
Inductive Tick := TickUserMsg | TickTerminal | TickAssistantMsg.

(** Which of the two worker promises settles first. *)
Inductive Worker := WA | WB.

(** What the run does not decide: the clock, the network, the scheduler. *)
Record Env := {
  date_now : Tick -> Z;
  network : Site -> NetOutcome;
  first_settled : Worker
}.

(* ------------------------------------------------------------------ *)
(** *** A state and exception monad *)

Definition Result (A : Type) : Type := (Exn + A)%type.
Definition M (A : Type) : Type := World -> Result A * World.

Definition ret {A} (a : A) : M A := fun w => (inr a, w).
Definition throw {A} (e : Exn) : M A := fun w => (inl e, w).
Definition bind {A B} (m : M A) (k : A -> M B) : M B :=
  fun w => match m w with
           | (inr a, w') => k a w'
           | (inl e, w') => (inl e, w')
           end.
Definition lift {A} (r : Result A) : M A := fun w => (r, w).
Definition modify (f : World -> World) : M unit := fun w => (inr tt, f w).
Definition gets {A} (f : World -> A) : M A := fun w => (inr (f w), w).

(** [try m catch (e) h]. *)
Definition try_catch {A} (m : M A) (h : Exn -> M A) : M A :=
  fun w => match m w with
           | (inl e, w') => h e w'
           | r => r
           end.

(** [try m finally c], for a [c] that does not throw. *)
Definition try_finally {A} (m : M A) (c : World -> World) : M A :=
  fun w => let (r, w') := m w in (r, c w').

(** The settlement of the promise an [async] function call returns, taken
    as a value: the call itself never throws. *)
Definition settle {A} (m : M A) : M (Result A) :=
  fun w => let (r, w') := m w in (inr r, w').

(** The same sequencing for code that only computes or throws. *)
Definition rbind {A B} (r : Result A) (k : A -> Result B) : Result B :=
  match r with
  | inr a => k a
  | inl e => inl e
  end.

Notation "x <- m ;; k" := (bind m (fun x => k))
  (at level 61, m at next level, right associativity).
Notation "x <-- r ;; k" := (rbind r (fun x => k))
  (at level 61, r at next level, right associativity).
Notation "m ;;; k" := (bind m (fun _ => k))
  (at level 61, right associativity).

Definition with_trace (w : World) (t : list Event) : World :=
  {| chat_messages := chat_messages w; pendingImage := pendingImage w;
     isStreaming := isStreaming w; send_disabled := send_disabled w;
     document := document w; ls_apikey := ls_apikey w; trace := t |}.

Definition with_document (w : World) (d : list TermBubble) : World :=
  {| chat_messages := chat_messages w; pendingImage := pendingImage w;
     isStreaming := isStreaming w; send_disabled := send_disabled w;
     document := d; ls_apikey := ls_apikey w; trace := trace w |}.

Definition with_chat_messages (w : World) (ms : list Message) : World :=
  {| chat_messages := ms; pendingImage := pendingImage w;
     isStreaming := isStreaming w; send_disabled := send_disabled w;
     document := document w; ls_apikey := ls_apikey w; trace := trace w |}.

Definition with_pendingImage (w : World) (p : option PendingImage) : World :=
  {| chat_messages := chat_messages w; pendingImage := p;
     isStreaming := isStreaming w; send_disabled := send_disabled w;
     document := document w; ls_apikey := ls_apikey w; trace := trace w |}.

Definition with_isStreaming (w : World) (b : bool) : World :=
  {| chat_messages := chat_messages w; pendingImage := pendingImage w;
     isStreaming := b; send_disabled := send_disabled w;
     document := document w; ls_apikey := ls_apikey w; trace := trace w |}.

Definition with_send_disabled (w : World) (b : bool) : World :=
  {| chat_messages := chat_messages w; pendingImage := pendingImage w;
     isStreaming := isStreaming w; send_disabled := b;
     document := document w; ls_apikey := ls_apikey w; trace := trace w |}.

(** [document.getElementById(id)] finds the first element of that id in tree
    order; [updateTerminal] and [removeTerminal] act on that element. *)
Fixpoint getElementById (id : JSString) (d : list TermBubble) : option TermBubble :=
  match d with
  | [] => None
  | b :: r => if str_eqb (tb_id b) id then Some b else getElementById id r
  end.

(** What [updateTerminal(id, text, isError)] does to the document: nothing
    when no element has the id; otherwise the text is replaced, and the
    colour is set only when [isError] holds. *)
Fixpoint update_first (id text : JSString) (isError : bool) (d : list TermBubble)
  : list TermBubble :=
  match d with
  | [] => []
  | b :: r =>
      if str_eqb (tb_id b) id
      then {| tb_id := tb_id b; tb_text := text;
              tb_danger := isError || tb_danger b |} :: r
      else b :: update_first id text isError r
  end.

(** What [removeTerminal(id)] does to the document. *)
Fixpoint remove_first (id : JSString) (d : list TermBubble) : list TermBubble :=
  match d with
  | [] => []
  | b :: r => if str_eqb (tb_id b) id then r else b :: remove_first id r
  end.

(** The bubble [createTerminalBubble] appends to the messages container. *)
Definition new_bubble (id : JSString) : TermBubble :=
  {| tb_id := id; tb_text := js "> Initializing..."; tb_danger := false |}.

(** What each event does to the state.  Calls, requests, notifications and
    console lines leave it as it is. *)
Definition apply_event (e : Event) (w : World) : World :=
  match e with
  | EvAppendMessage m => with_chat_messages w (chat_messages w ++ [m])
  | EvClearImage => with_pendingImage w None
  | EvSendDisabled b => with_send_disabled w b
  | EvStreaming b => with_isStreaming w b
  | EvCreateTerminal id => with_document w (document w ++ [new_bubble id])
  | EvUpdateTerminal id text isError =>
      with_document w (update_first id text isError (document w))
  | EvRemoveTerminal id => with_document w (remove_first id (document w))
  | EvCall _ _ | EvFetch _ _ | EvToast _ _ | EvConsoleError _ => w
  end.

(** An event happens: the state changes and the trace grows. *)
Definition happen (e : Event) (w : World) : World :=
  let w' := apply_event e w in with_trace w' (trace w' ++ [e]).

Definition perform (e : Event) : M unit := modify (happen e).

(* ------------------------------------------------------------------ *)
(** *** The collaborators defined in index.html *)

Variable env : Env.

(** Modelled from the spec: [appendMessage(turn)] is defined outside
    [agent.js]; it appends the turn to the messages of the active chat (the
    array [runAgentMode] reads back through [chat.messages]). *)
Definition appendMessage (m : Message) : M unit := perform (EvAppendMessage m).

(** Modelled from the spec: [clearImage()] is defined outside [agent.js]; it
    drops the pending image. *)
Definition clearImage : M unit := perform EvClearImage.

(** Modelled from the spec: [toast(message, kind)] is defined outside
    [agent.js]; it shows a notification. *)
Definition toast (message kind : JSString) : M unit :=
  perform (EvToast message kind).

Definition console_error (message : JSString) : M unit :=
  perform (EvConsoleError message).

(** Modelled from the spec: [LS.get(key, fallback)] is defined outside
    [agent.js]; it reads the persisted value of the key, or the fallback
    when nothing is stored. *)
Definition LS_get (stored : option JSString) (fallback : JSString) : JSString :=
  match stored with
  | Some k => k
  | None => fallback
  end.

(* ------------------------------------------------------------------ *)
(** *** Terminal bubble helpers *)

(** ['term_' + Date.now()] *)
Definition terminal_id : JSString :=
  js "term_" ++ Z_to_js (date_now env TickTerminal).

Definition createTerminalBubble : M JSString :=
  let id := terminal_id in
  perform (EvCreateTerminal id) ;;;
  ret id.

Definition updateTerminal (id text : JSString) (isError : bool) : M unit :=
  perform (EvUpdateTerminal id text isError).

Definition removeTerminal (id : JSString) : M unit :=
  perform (EvRemoveTerminal id).

(* ------------------------------------------------------------------ *)
(** *** fetchAPIBackground *)

Definition default_model : JSString := js "gemma-3-27b-it".

(** [String(v)] and the conversion of a template literal. *)
Definition to_string (v : JSValue) : Result JSString :=
  match ToString v with
  | Some s => inr s
  | None => inl (TypeErrorOf CannotConvert)
  end.

(** The line terminators, which [.] does not match. *)
Definition is_line_terminator (c : codeunit) : bool :=
  ((c =? 10) || (c =? 13) || (c =? 8232) || (c =? 8233))%N.

Fixpoint span_until_semicolon (s : JSString) : JSString * JSString :=
  match s with
  | c :: r =>
      if (c =? 59)%N then ([], s)
      else let (a, b) := span_until_semicolon r in (c :: a, b)
  | [] => ([], [])
  end.

Fixpoint take_line (s : JSString) : JSString :=
  match s with
  | c :: r => if is_line_terminator c then [] else c :: take_line r
  | [] => []
  end.

(** [s.match(/^data:(image\/[^;]+);base64,(.+)/)]: the two groups, when the
    string starts with a data URL of an image.  The first group runs to the
    first semicolon, which must open [;base64,]; the second is the rest of
    the line. *)
Definition match_data_url (s : JSString) : option (JSString * JSString) :=
  match strip_prefix (js "data:image/") s with
  | None => None
  | Some r =>
      match span_until_semicolon r with
      | ([], _) => None
      | (sub, r1) =>
          match strip_prefix (js ";base64,") r1 with
          | None => None
          | Some r2 =>
              match take_line r2 with
              | [] => None
              | payload => Some (js "image/" ++ sub, payload)
              end
          end
      end
  end.

Definition image_parts (imageBase64 : JSValue) : Result (list Part) :=
  if truthy imageBase64 then
    match imageBase64 with
    | JStr s =>
        match match_data_url s with
        | Some (mimeType, data) => inr [InlineData mimeType data]
        | None => inr [InlineData (js "image/jpeg") s]
        end
    | _ => inl (TypeErrorOf MatchNotAFunction)
    end
  else inr [].

Definition personaPrefix (systemPrompt : JSValue) : Result (list Turn) :=
  if truthy systemPrompt then
    sp <-- to_string systemPrompt ;;
    inr [ {| turn_role := js "user";
             parts := [TextPart (js "[System Instructions] " ++ sp)] |};
          {| turn_role := js "model";
             parts := [TextPart (js "Understood.")] |} ]
  else inr [].

Definition is_assistant (r : JSValue) : bool :=
  match r with
  | JStr s => str_eqb s (js "assistant")
  | _ => false
  end.

Fixpoint formattedHistory (history : list HistTurn) : Result (list Turn) :=
  match history with
  | [] => inr []
  | m :: r =>
      t <-- to_string (js_or (h_content m) (JStr [])) ;;
      rest <-- formattedHistory r ;;
      inr ({| turn_role := if is_assistant (h_role m) then js "model" else js "user";
              parts := [TextPart t] |} :: rest)
  end.

Definition harm_categories : list (JSString * JSString) :=
  [ (js "HARM_CATEGORY_HARASSMENT", js "BLOCK_MEDIUM_AND_ABOVE");
    (js "HARM_CATEGORY_HATE_SPEECH", js "BLOCK_MEDIUM_AND_ABOVE");
    (js "HARM_CATEGORY_SEXUALLY_EXPLICIT", js "BLOCK_MEDIUM_AND_ABOVE");
    (js "HARM_CATEGORY_DANGEROUS_CONTENT", js "BLOCK_MEDIUM_AND_ABOVE") ].

(** The request [fetchAPIBackground] builds between the key check and
    [fetch]; the conversions are made in the order of the source, and the
    first that throws ends the call. *)
Definition build_request (apiKey : JSString) (a : CallArgs) : Result Request :=
  model <-- to_string (js_or (arg_modelOverride a) (JStr default_model)) ;;
  let API_URL := js "https://generativelanguage.googleapis.com/v1beta/models/"
                 ++ model ++ js ":generateContent" in
  safeText <-- to_string (js_or (arg_newUserText a) (JStr [])) ;;
  img <-- image_parts (arg_imageBase64 a) ;;
  prefix <-- personaPrefix (arg_systemPrompt a) ;;
  hist <-- formattedHistory (arg_history a) ;;
  inr {| url := API_URL ++ js "?key=" ++ apiKey;
         method := js "POST";
         headers := [(js "Content-Type", js "application/json")];
         contents := prefix ++ hist ++
                     [{| turn_role := js "user"; parts := TextPart safeText :: img |}];
         safetySettings := harm_categories;
         temperature := js "0.9";
         maxOutputTokens := 8192 |}.

Definition MissingCredential : Exn := ErrorObj (js "No API key saved.").

(** [fetchAPIBackground] from its first line to the call of [fetch]: the
    key is read and checked, then the request is built. *)
Definition request_of (stored : option JSString) (a : CallArgs) : Result Request :=
  let apiKey := LS_get stored [] in
  if negb (truthy (JStr apiKey)) then inl MissingCredential
  else build_request apiKey a.

(** The part of [fetchAPIBackground] that runs at the call, up to its first
    [await]. *)
Definition fetch_begin (site : Site) (a : CallArgs) : M unit :=
  perform (EvCall site a) ;;;
  stored <- gets ls_apikey ;;
  req <- lift (request_of stored a) ;;
  perform (EvFetch site req).

(** [data?.candidates?.[0]?.content?.parts?.[0]?.text]. *)
Definition first_text (data : JSValue) : JSValue :=
  opt_field
    (opt_index0
       (opt_field
          (opt_field (opt_index0 (opt_field data (js "candidates"))) (js "content"))
          (js "parts")))
    (js "text").

(** The part of [fetchAPIBackground] that runs once [fetch] has settled. *)
Definition fetch_settle (o : NetOutcome) : Result JSValue :=
  match o with
  | NetRejected m => inl (Rejection m)
  | NetResponse res =>
      if negb (ok res) then
        let err := match body res with
                   | BodyValue v => v
                   | BodyInvalid _ => JObj []
                   end in
        let m := opt_field (opt_field err (js "error")) (js "message") in
        if truthy m then
          match ToString m with
          | Some s => inl (ErrorObj s)
          | None => inl (TypeErrorOf CannotConvert)
          end
        else inl (ErrorObj (js "HTTP " ++ N_to_js (status res)))
      else
        match body res with
        | BodyInvalid m => inl (Rejection m)
        | BodyValue data => inr (js_or (first_text data) (JStr []))
        end
  end.

Definition fetchAPIBackground (site : Site) (a : CallArgs) : M JSValue :=
  fetch_begin site a ;;;
  lift (fetch_settle (network env site)).

(* ------------------------------------------------------------------ *)
(** *** runAgentMode *)

Definition nl : JSString := [10%N].
Definition dq : JSString := [34%N].

Definition orchestratorPrompt : JSString :=
  js "You are the Orchestrator. The user has submitted a complex request. Break this request into two distinct tasks for two worker agents. "
  ++ js "**Crucial Contract:** If the task involves coding, you MUST explicitly define shared CSS classes, HTML IDs, and JavaScript variable names so the workers are perfectly synced. "
  ++ js "**Output Format:** You must output STRICTLY a valid JSON object with exactly two keys: "
  ++ dq ++ js "taskA" ++ dq ++ js " and " ++ dq ++ js "taskB" ++ dq
  ++ js ". Do not include markdown formatting or any other text.".

Definition workerSystemPrompt : JSString :=
  js "You are a specialized worker node. Execute the following task perfectly. Adhere strictly to any variable names or IDs provided.".

Definition synthesizerPrompt : JSString :=
  js "You are the final compiler and Senior Code Reviewer. You have received components from two parallel workers. "
  ++ js "Stitch them into a single, flawless output for the user. "
  ++ js "**Crucially:** check for programmatic mismatches. Ensure all CSS classes, HTML IDs, and variables match perfectly. "
  ++ js "Fix any broken logic. Output the final, polished response directly to the user.".

(** The two errors of the planning phase. *)
Definition PlanningError_invalid : Exn :=
  ErrorObj (js "Orchestrator failed to generate a valid plan.").
Definition PlanningError_missing : Exn :=
  ErrorObj (js "Orchestrator response missing taskA or taskB.").

(** [orchestratorResponse.replace(/```json/g, '').replace(/```/g, '').trim()] *)
Definition cleanJson (orchestratorResponse : JSString) : JSString :=
  trim (remove_all (js "```") (remove_all (js "```json") orchestratorResponse)).

(** What the inner [try] computes: a reply that is not a string has no
    [replace], a reply that is not JSON makes [JSON.parse] throw. *)
Definition parsed_plan (orchestratorResponse : JSValue) : option JSValue :=
  match orchestratorResponse with
  | JStr s => JSON_parse (cleanJson s)
  | _ => None
  end.

(** The inner [try] with its [catch] clause, which answers both failures
    with the same error. *)
Definition parse_plan (orchestratorResponse : JSValue) : M JSValue :=
  match parsed_plan orchestratorResponse with
  | Some tasks => ret tasks
  | None =>
      console_error (js "Orchestrator JSON parse error") ;;;
      throw PlanningError_invalid
  end.

(** [!tasks || !tasks.taskA || !tasks.taskB] *)
Definition plan_incomplete (tasks : JSValue) : bool :=
  negb (truthy tasks)
  || negb (truthy (get_field tasks (js "taskA")))
  || negb (truthy (get_field tasks (js "taskB"))).

Definition history_of (messages : list Message) : list HistTurn :=
  map (fun m => {| h_role := role m; h_content := content m |})
      (removelast messages).

Definition planner_args (history : list HistTurn) (userText : JSValue)
                        (userMsg : Message) : CallArgs :=
  {| arg_history := history;
     arg_newUserText := userText;
     arg_imageBase64 := js_or (imageBase64 userMsg) JNull;
     arg_systemPrompt := JStr orchestratorPrompt;
     arg_modelOverride := JStr default_model |}.

(** Phase 1, the orchestrator. *)
Definition planning (userText : JSValue) (userMsg : Message) (terminalId : JSString)
  : M (list HistTurn * JSValue) :=
  updateTerminal terminalId (js "> Orchestrator analyzing request...") false ;;;
  messages <- gets chat_messages ;;
  let history := history_of messages in
  orchestratorResponse <-
    fetchAPIBackground Planner (planner_args history userText userMsg) ;;
  tasks <- parse_plan orchestratorResponse ;;
  if plan_incomplete tasks then throw PlanningError_missing else
  updateTerminal terminalId
    (js "> Orchestrator generated tasks. Dispatching to parallel workers...") false ;;;
  ret (history, tasks).

Definition worker_args (task : JSValue) : CallArgs :=
  {| arg_history := [];
     arg_newUserText := task;
     arg_imageBase64 := JNull;
     arg_systemPrompt := JStr workerSystemPrompt;
     arg_modelOverride := JStr default_model |}.

(** [Promise.all] over the two worker promises.  [pa] and [pb] tell whether
    each call got as far as [fetch].  A call that threw before is a promise
    rejected from the start, and is the first to reject; two requests in
    flight settle in the order the scheduler gives, and the first rejection
    is the one [Promise.all] reports. *)
Definition promise_all (pa pb : Result unit) : Result (JSValue * JSValue) :=
  match pa, pb with
  | inl e, _ => inl e
  | inr _, inl e => inl e
  | inr _, inr _ =>
      match fetch_settle (network env WorkerA),
            fetch_settle (network env WorkerB) with
      | inr a, inr b => inr (a, b)
      | inl e, inr _ => inl e
      | inr _, inl e => inl e
      | inl ea, inl eb =>
          match first_settled env with
          | WA => inl ea
          | WB => inl eb
          end
      end
  end.

(** Phase 2, the parallel workers. *)
Definition dispatch (tasks : JSValue) (terminalId : JSString)
  : M (JSValue * JSValue) :=
  pa <- settle (fetch_begin WorkerA (worker_args (get_field tasks (js "taskA")))) ;;
  pb <- settle (fetch_begin WorkerB (worker_args (get_field tasks (js "taskB")))) ;;
  results <- lift (promise_all pa pb) ;;
  updateTerminal terminalId
    (js "> Workers A and B have completed execution. Synthesizing final output...")
    false ;;;
  ret results.

(** The template literal of [combinedInput], before [trim]. *)
Definition combined_template (a b : JSString) : JSString :=
  nl ++ js "--- WORKER A OUTPUT ---" ++ nl ++ a ++ nl ++ nl
     ++ js "--- WORKER B OUTPUT ---" ++ nl ++ b ++ nl ++ js "    ".

Definition combinedInput (a b : JSString) : JSString :=
  trim (combined_template a b).

Definition synthesizer_args (history : list HistTurn) (a b : JSString) : CallArgs :=
  {| arg_history := history;
     arg_newUserText := JStr (combinedInput a b);
     arg_imageBase64 := JNull;
     arg_systemPrompt := JStr synthesizerPrompt;
     arg_modelOverride := JStr default_model |}.

(** Phase 3, the synthesizer. *)
Definition synthesis (history : list HistTurn) (resultA resultB : JSValue)
  : M JSValue :=
  a <- lift (to_string resultA) ;;
  b <- lift (to_string resultB) ;;
  fetchAPIBackground Synthesizer (synthesizer_args history a b).

Definition assistant_message (finalResponse : JSValue) : Message :=
  {| role := JStr (js "assistant"); content := finalResponse;
     ts := date_now env TickAssistantMsg;
     imageBase64 := JUndefined; imageDataUrl := JUndefined |}.

(** Finalize. *)
Definition finalize (terminalId : JSString) (finalResponse : JSValue) : M unit :=
  removeTerminal terminalId ;;;
  appendMessage (assistant_message finalResponse).

(** The body of the outer [try]. *)
Definition pipeline (userText : JSValue) (userMsg : Message) (terminalId : JSString)
  : M unit :=
  plan <- planning userText userMsg terminalId ;;
  results <- dispatch (snd plan) terminalId ;;
  finalResponse <- synthesis (fst plan) (fst results) (snd results) ;;
  finalize terminalId finalResponse.

(** The [catch] clause. *)
Definition on_error (terminalId : JSString) (err : Exn) : M unit :=
  updateTerminal terminalId (js "> Error: " ++ exn_message err) true ;;;
  toast (js "Agent Mode Error: " ++ exn_message err) (js "error") ;;;
  console_error (exn_message err).

(** The [finally] clause. *)
Definition cleanup (w : World) : World :=
  happen (EvSendDisabled false) (happen (EvStreaming false) w).

Definition user_message (userText : JSValue) (pending : option PendingImage)
  : Message :=
  {| role := JStr (js "user"); content := userText;
     ts := date_now env TickUserMsg;
     imageBase64 := match pending with Some p => base64 p | None => JUndefined end;
     imageDataUrl := match pending with Some p => dataUrl p | None => JUndefined end |}.

(** The statements before the [try]. *)
Definition setup (userText : JSValue) : M (Message * JSString) :=
  pending <- gets pendingImage ;;
  let userMsg := user_message userText pending in
  match pending with Some _ => clearImage | None => ret tt end ;;;
  appendMessage userMsg ;;;
  perform (EvSendDisabled true) ;;;
  perform (EvStreaming true) ;;;
  terminalId <- createTerminalBubble ;;
  updateTerminal terminalId (js "> Initializing S.I.L.K. Agent Mode...") false ;;;
  ret (userMsg, terminalId).

Definition runAgentMode (userText : JSValue) : M unit :=
  if negb (truthy userText) then ret tt else
  s <- setup userText ;;
  try_finally
    (try_catch (pipeline userText (fst s) (snd s)) (on_error (snd s)))
    cleanup.

End Model.

(** A model of numbers that keeps the literal as it was written: a number is
    truthy when its mantissa has a non-zero digit (a literal that underflows
    to zero is out of its reach), and prints as written.  It serves the
    closed examples below, none of which contains a number. *)
Fixpoint mantissa (lit : JSString) : JSString :=
  match lit with
  | c :: r => if ((c =? 101) || (c =? 69))%N then [] else c :: mantissa r
  | [] => []
  end.

#[export] Instance literal_numbers : JSNumbers := {|
  Num := JSString;
  num_of_literal := fun lit => lit;
  num_truthy := fun lit =>
    existsb (fun c => is_digit c && negb (c =? 48)%N) (mantissa lit);
  num_to_string := fun lit => lit
|}.

(* ================================================================== *)
(** ** Observations on a run *)

Section Observations.
Context {NM : JSNumbers}.

(** The world after a list of events has happened. *)
Definition replay (t : list Event) (w : World) : World :=
  fold_left (fun w e => happen e w) t w.

(** The phases of a run, as the trace shows them: a call of
    [fetchAPIBackground] from each of its four places, and the append of the
    assistant turn. *)
Inductive Phase := Planning | DispatchA | DispatchB | Synthesis | Finalization.

Definition phase_of (e : Event) : list Phase :=
  match e with
  | EvCall Planner _ => [Planning]
  | EvCall WorkerA _ => [DispatchA]
  | EvCall WorkerB _ => [DispatchB]
  | EvCall Synthesizer _ => [Synthesis]
  | EvAppendMessage m => if is_assistant (role m) then [Finalization] else []
  | _ => []
  end.

Definition phases (t : list Event) : list Phase := flat_map phase_of t.

(** The turns appended to the chat by a list of events. *)
Definition appended (t : list Event) : list Message :=
  flat_map (fun e => match e with EvAppendMessage m => [m] | _ => [] end) t.

(** The calls of [fetchAPIBackground] and the requests given to [fetch]. *)
Definition calls (t : list Event) : list (Site * CallArgs) :=
  flat_map (fun e => match e with EvCall s a => [(s, a)] | _ => [] end) t.

Definition requests (t : list Event) : list (Site * Request) :=
  flat_map (fun e => match e with EvFetch s r => [(s, r)] | _ => [] end) t.

Definition succeeded {A} (r : Result A) : bool :=
  match r with
  | inr _ => true
  | inl _ => false
  end.

(** The call from a site got its request out and the answer of the network
    made it return. *)
Definition answered (env : Env) (s : Site) (t : list Event) : bool :=
  existsb (fun sr => site_eqb (fst sr) s) (requests t)
  && succeeded (fetch_settle (network env s)).

(** The planner's reply holds a plan the orchestrator accepts. *)
Definition plan_accepted (env : Env) : bool :=
  match fetch_settle (network env Planner) with
  | inr reply =>
      match parsed_plan reply with
      | Some tasks => negb (plan_incomplete tasks)
      | None => false
      end
  | inl _ => false
  end.

(** Both workers answered, and the template literal of [combinedInput] can
    turn each of the two results into text. *)
Definition results_convertible (env : Env) : bool :=
  match fetch_settle (network env WorkerA), fetch_settle (network env WorkerB) with
  | inr a, inr b => succeeded (to_string a) && succeeded (to_string b)
  | _, _ => false
  end.

(** The member of the plan that a worker is given. *)
Definition task_key (s : Site) : JSString :=
  match s with
  | WorkerA => js "taskA"
  | _ => js "taskB"
  end.

(** A reply the planning phase turns down: it does not parse, or the value
    it parses to lacks a non-empty [taskA] or [taskB]. *)
Definition plan_rejected (reply : JSValue) : Prop :=
  parsed_plan reply = None \/
  exists tasks, parsed_plan reply = Some tasks /\
    (truthy (get_field tasks (js "taskA")) = false \/
     truthy (get_field tasks (js "taskB")) = false).

(** The error that answers a rejected reply. *)
Definition planning_error (reply : JSValue) : Exn :=
  match parsed_plan reply with
  | None => PlanningError_invalid
  | Some _ => PlanningError_missing
  end.

Definition is_inline (p : Part) : bool :=
  match p with
  | InlineData _ _ => true
  | TextPart _ => false
  end.

(** Some turn of the request holds an inline image. *)
Definition carries_image (req : Request) : bool :=
  existsb (fun turn => existsb is_inline (parts turn)) (contents req).

(** The conversation a worker is sent: the two turns that stand for the
    system prompt, and one user turn whose only part is the task. *)
Definition worker_contents (task : JSString) : list Turn :=
  [ {| turn_role := js "user";
       parts := [TextPart (js "[System Instructions] " ++ workerSystemPrompt)] |};
    {| turn_role := js "model"; parts := [TextPart (js "Understood.")] |};
    {| turn_role := js "user"; parts := [TextPart task] |} ].



(** The same environment with another worker promise settling first. *)
Definition with_first_settled (env : Env) (first : Worker) : Env :=
  {| date_now := date_now env; network := network env; first_settled := first |}.

(** [err?.error?.message] for the body of a response that is not ok. *)
Definition vendor_message (res : Response) : JSValue :=
  opt_field
    (opt_field
       match body res with
       | BodyValue v => v
       | BodyInvalid _ => JObj []
       end
       (js "error"))
    (js "message").

(** No code unit of the text is a backtick. *)
Definition no_backtick (s : JSString) : bool :=
  forallb (fun c => negb (c =? 96)%N) s.

(** The two section delimiters of [combinedInput]. *)
Definition label_A : JSString := js "--- WORKER A OUTPUT ---".
Definition label_B : JSString := js "--- WORKER B OUTPUT ---".

(** The turns of the chat before the run, as [history] holds them. *)
Definition history_before (w : World) : list HistTurn :=
  map (fun m => {| h_role := role m; h_content := content m |}) (chat_messages w).

(* ------------------------------------------------------------------ *)
(** *** A sample run *)

(** The planner reply of the specification: the plan between code fences. *)
Definition plan_members : JSString :=
  dq ++ js "taskA" ++ dq ++ js ":" ++ dq ++ js "x" ++ dq ++ js ","
     ++ dq ++ js "taskB" ++ dq ++ js ":" ++ dq ++ js "y" ++ dq.

Definition plan_text : JSString := js "{" ++ plan_members ++ js "}".

Definition fenced_reply : JSString :=
  js "```json" ++ nl ++ plan_text ++ nl ++ js "```".

Definition plan_xy : JSValue :=
  JObj [(js "taskA", JStr (js "x")); (js "taskB", JStr (js "y"))].

(** A plan without [taskB]. *)
Definition plan_text_without_B : JSString :=
  js "{" ++ dq ++ js "taskA" ++ dq ++ js ":" ++ dq ++ js "x" ++ dq ++ js "}".

(** The vendor's envelope around a text. *)
Definition envelope (text : JSString) : JSValue :=
  JObj [(js "candidates",
         JArr [JObj [(js "content",
                      JObj [(js "parts", JArr [JObj [(js "text", JStr text)]])])]])].

Definition answer (text : JSString) : NetOutcome :=
  NetResponse {| status := 200; body := BodyValue (envelope text) |}.

Definition sample_env (planner workerA workerB synthesizer : NetOutcome) : Env :=
  {| date_now := fun tick =>
                   match tick with
                   | TickUserMsg => 1000%Z
                   | TickTerminal => 1001%Z
                   | TickAssistantMsg => 2000%Z
                   end;
     network := fun site =>
                  match site with
                  | Planner => planner
                  | WorkerA => workerA
                  | WorkerB => workerB
                  | Synthesizer => synthesizer
                  end;
     first_settled := WB |}.

(** Every call answered; worker B's text ends with a line feed. *)
Definition env_ok : Env :=
  sample_env (answer fenced_reply) (answer (js "A-out")) (answer (js "B-out" ++ nl))
             (answer (js "final")).

(** The planner leaves [taskB] out. *)
Definition env_without_B : Env :=
  sample_env (answer plan_text_without_B) (answer (js "A-out")) (answer (js "B-out"))
             (answer (js "final")).

(** The planner's response is ok, and its body is not JSON. *)
Definition not_json : Response :=
  {| status := 200; body := BodyInvalid (js "Unexpected end of JSON input") |}.

Definition env_not_json : Env :=
  sample_env (NetResponse not_json) (answer (js "A-out")) (answer (js "B-out"))
             (answer (js "final")).

Definition hello : JSValue := JStr (js "hello").

Definition world_with_key : World :=
  {| chat_messages := []; pendingImage := None; isStreaming := false;
     send_disabled := false; document := []; ls_apikey := Some (js "k");
     trace := [] |}.

Definition world_without_key : World :=
  {| chat_messages := []; pendingImage := None; isStreaming := false;
     send_disabled := false; document := []; ls_apikey := None;
     trace := [] |}.

(** The events of [setup]. *)
Definition setup_events (env : Env) (userText : JSValue) (w : World) : list Event :=
  (match pendingImage w with Some _ => [EvClearImage] | None => [] end) ++
  [EvAppendMessage (user_message env userText (pendingImage w));
   EvSendDisabled true;
   EvStreaming true;
   EvCreateTerminal (terminal_id env);
   EvUpdateTerminal (terminal_id env) (js "> Initializing S.I.L.K. Agent Mode...") false].

(* ------------------------------------------------------------------ *)
(** *** What the requests and the terminal show *)

(** The address of [generateContent] for a model, with the key as query. *)
Definition endpoint (model apiKey : JSString) : JSString :=
  js "https://generativelanguage.googleapis.com/v1beta/models/" ++ model
  ++ js ":generateContent" ++ js "?key=" ++ apiKey.

(** [String(v || '')], the cast [fetchAPIBackground] applies to texts. *)
Definition text_of (v : JSValue) : option JSString :=
  ToString (js_or v (JStr [])).

(** The events that write the two controls of the page. *)
Definition touches_controls (e : Event) : bool :=
  match e with
  | EvSendDisabled _ | EvStreaming _ => true
  | _ => false
  end.

(** The lines written on a terminal bubble, with their error flag. *)
Definition terminal_lines (t : list Event) : list (JSString * bool) :=
  flat_map (fun e => match e with
                     | EvUpdateTerminal _ text isError => [(text, isError)]
                     | _ => []
                     end) t.

(** The ids that the terminal events of a trace name. *)
Definition terminal_targets (t : list Event) : list JSString :=
  flat_map (fun e => match e with
                     | EvCreateTerminal id | EvUpdateTerminal id _ _
                     | EvRemoveTerminal id => [id]
                     | _ => []
                     end) t.

(** The progress lines of [runAgentMode], in the order of the source. *)
Definition progress_lines : list JSString :=
  [ js "> Initializing S.I.L.K. Agent Mode...";
    js "> Orchestrator analyzing request...";
    js "> Orchestrator generated tasks. Dispatching to parallel workers...";
    js "> Workers A and B have completed execution. Synthesizing final output..." ].

(* ------------------------------------------------------------------ *)
(** *** More samples *)

(** A picture as the page keeps it: the payload, and its data URL. *)
Definition png_payload : JSString := js "iVBORw0KGgo=".
Definition png_url : JSString := js "data:image/png;base64," ++ png_payload.

Definition sample_image : PendingImage :=
  {| base64 := JStr png_payload; dataUrl := JStr png_url |}.

(** An earlier exchange in the chat, and a picture waiting to be sent. *)
Definition earlier_turns : list Message :=
  [ {| role := JStr (js "user"); content := JStr (js "hi"); ts := 10%Z;
       imageBase64 := JUndefined; imageDataUrl := JUndefined |};
    {| role := JStr (js "assistant"); content := JStr (js "hello there"); ts := 20%Z;
       imageBase64 := JUndefined; imageDataUrl := JUndefined |} ].

Definition world_with_image : World :=
  {| chat_messages := earlier_turns; pendingImage := Some sample_image;
     isStreaming := false; send_disabled := false; document := [];
     ls_apikey := Some (js "k"); trace := [] |}.

(** A call with a history, a system prompt, a picture and no model. *)
Definition sample_call : CallArgs :=
  {| arg_history := history_of (earlier_turns ++ earlier_turns);
     arg_newUserText := JStr (js "draw it");
     arg_imageBase64 := JStr png_url;
     arg_systemPrompt := JStr (js "Be brief.");
     arg_modelOverride := JUndefined |}.

(** The bubble an earlier run left behind, under the id of the next one. *)
Definition stale_bubble : TermBubble :=
  {| tb_id := terminal_id env_ok; tb_text := js "> Error: No API key saved.";
     tb_danger := true |}.

Definition other_bubble : TermBubble :=
  {| tb_id := js "term_7"; tb_text := js "> Initializing..."; tb_danger := false |}.

Definition world_with_stale_bubble : World :=
  {| chat_messages := []; pendingImage := None; isStreaming := false;
     send_disabled := false; document := [other_bubble; stale_bubble; stale_bubble];
     ls_apikey := Some (js "k"); trace := [] |}.

(** A reply with two candidates, the first of them with two parts. *)
Definition candidate (texts : list JSString) : JSValue :=
  JObj [(js "content",
         JObj [(js "parts", JArr (map (fun t => JObj [(js "text", JStr t)]) texts))])].

Definition two_candidates : Response :=
  {| status := 200;
     body := BodyValue
               (JObj [(js "candidates",
                       JArr [candidate [js "one"; js "two"]; candidate [js "three"]])]) |}.

(** A reply that was blocked: feedback, and no candidate. *)
Definition blocked : Response :=
  {| status := 200;
     body := BodyValue (JObj [(js "promptFeedback",
                               JObj [(js "blockReason", JStr (js "SAFETY"))])]) |}.

End Observations.

Section Properties.
Context {NM : JSNumbers}.

(* ------------------------------------------------------------------ *)
(** *** The fuel of [JSON_parse] is never exhausted *)

Lemma skip_ws_length (s : JSString) :
  List.length (skip_ws s) <= List.length s.
Proof.
  induction s as [|c r IH]; simpl; [lia|].
  destruct (is_json_ws c); simpl; lia.
Qed.

Lemma span_digits_length (s ds r : JSString) :
  span_digits s = (ds, r) -> List.length ds + List.length r = List.length s.
Proof.
  revert ds r; induction s as [|c s IH]; simpl; intros ds r H.
  - inversion H; reflexivity.
  - destruct (is_digit c).
    + destruct (span_digits s) as [ds' r'] eqn:E.
      inversion H; subst; simpl. rewrite (IH _ _ eq_refl); reflexivity.
    + inversion H; reflexivity.
Qed.

Lemma strip_prefix_length (p s r : JSString) :
  strip_prefix p s = Some r -> List.length p + List.length r = List.length s.
Proof.
  revert s; induction p as [|x p IH]; intros [|y s]; simpl; intros H;
    try discriminate; try (inversion H; reflexivity).
  destruct (x =? y)%N; [|discriminate]. rewrite (IH _ H); reflexivity.
Qed.

Lemma parse_string_chars_length (s cs r : JSString) :
  parse_string_chars s = Some (cs, r) -> List.length r < List.length s.
Proof.
  remember (List.length s) as n eqn:Hn.
  revert s cs r Hn; induction n as [n IH] using lt_wf_ind; intros s cs r Hn H.
  destruct s as [|c s]; simpl in H; [discriminate|].
  destruct (c =? 34)%N.
  { inversion H; subst; simpl; lia. }
  destruct (c =? 92)%N.
  - destruct s as [|e r1]; [discriminate|].
    destruct (e =? 117)%N.
    + destruct r1 as [|h1 [|h2 [|h3 [|h4 r2]]]]; try discriminate.
      destruct (hex4 h1 h2 h3 h4); [|discriminate].
      destruct (parse_string_chars r2) as [[cs' rest]|] eqn:E; [|discriminate].
      inversion H; subst.
      assert (List.length r < List.length r2)
        by (eapply (IH (List.length r2)); [simpl; lia|reflexivity|exact E]).
      simpl; lia.
    + destruct (unescape e); [|discriminate].
      destruct (parse_string_chars r1) as [[cs' rest]|] eqn:E; [|discriminate].
      inversion H; subst.
      assert (List.length r < List.length r1)
        by (eapply (IH (List.length r1)); [simpl; lia|reflexivity|exact E]).
      simpl; lia.
  - destruct (c <? 32)%N; [discriminate|].
    destruct (parse_string_chars s) as [[cs' rest]|] eqn:E; [|discriminate].
    inversion H; subst.
    assert (List.length r < List.length s)
      by (eapply (IH (List.length s)); [simpl; lia|reflexivity|exact E]).
    simpl; lia.
Qed.

Lemma scan_int_length (s i r : JSString) :
  scan_int s = Some (i, r) -> List.length r < List.length s.
Proof.
  destruct s as [|c s]; simpl; [discriminate|].
  destruct (c =? 48)%N.
  - intros H; inversion H; subst; simpl; lia.
  - destruct (is_digit c); [|discriminate].
    destruct (span_digits s) as [ds r'] eqn:E. intros H; inversion H; subst.
    apply span_digits_length in E. simpl; lia.
Qed.

Lemma scan_frac_length (s f r : JSString) :
  scan_frac s = Some (f, r) -> List.length r <= List.length s.
Proof.
  destruct s as [|c s]; simpl.
  - intros H; inversion H; simpl; lia.
  - destruct (c =? 46)%N.
    + destruct (span_digits s) as [[|d ds] r'] eqn:E; [discriminate|].
      intros H; inversion H; subst. apply span_digits_length in E. simpl in *; lia.
    + intros H; inversion H; simpl; lia.
Qed.

Lemma scan_exp_length (s e r : JSString) :
  scan_exp s = Some (e, r) -> List.length r <= List.length s.
Proof.
  destruct s as [|c s]; simpl.
  - intros H; inversion H; simpl; lia.
  - destruct ((c =? 101) || (c =? 69))%N.
    + destruct s as [|g r0].
      * simpl. discriminate.
      * destruct ((g =? 43) || (g =? 45))%N.
        -- destruct (span_digits r0) as [[|d ds] r'] eqn:E; [discriminate|].
           intros H; inversion H; subst. apply span_digits_length in E.
           simpl in *; lia.
        -- destruct (span_digits (g :: r0)) as [[|d ds] r'] eqn:E; [discriminate|].
           intros H; inversion H; subst. apply span_digits_length in E.
           simpl in *; lia.
    + intros H; inversion H; simpl; lia.
Qed.

Lemma scan_number_length (s lit r : JSString) :
  scan_number s = Some (lit, r) -> List.length r < List.length s.
Proof.
  unfold scan_number.
  assert (Hm : forall m s1, (m, s1) =
            match s with
            | c :: r0 => if (c =? 45)%N then ([c], r0) else ([], s)
            | [] => ([], s)
            end -> List.length s1 <= List.length s).
  { intros m s1. destruct s as [|c r0]; [intros H; inversion H; simpl; lia|].
    destruct (c =? 45)%N; intros H; inversion H; simpl; lia. }
  destruct (match s with
            | c :: r0 => if (c =? 45)%N then ([c], r0) else ([], s)
            | [] => ([], s)
            end) as [m s1] eqn:E.
  specialize (Hm m s1 eq_refl).
  destruct (scan_int s1) as [[i s2]|] eqn:E1; [|discriminate].
  destruct (scan_frac s2) as [[f s3]|] eqn:E2; [|discriminate].
  destruct (scan_exp s3) as [[e s4]|] eqn:E3; [|discriminate].
  intros H; inversion H; subst.
  apply scan_int_length in E1. apply scan_frac_length in E2.
  apply scan_exp_length in E3. lia.
Qed.

(** With fuel above twice the length of the input, the parser answers, and a
    value it reads consumes at least one code unit. *)
Lemma parse_fuel (f : nat) :
  (forall s, 2 * List.length s + 1 <= f ->
     parse_value f s <> PFuel /\
     forall v r, parse_value f s = POk v r -> List.length r < List.length s) /\
  (forall s acc, 2 * List.length s + 2 <= f ->
     parse_elements f s acc <> PFuel /\
     forall v r, parse_elements f s acc = POk v r -> List.length r < List.length s) /\
  (forall s acc, 2 * List.length s + 2 <= f ->
     parse_members f s acc <> PFuel /\
     forall v r, parse_members f s acc = POk v r -> List.length r < List.length s).
Proof.
  induction f as [|f [IHv [IHe IHm]]].
  { repeat split; intros; try lia; simpl in *; discriminate. }
  split; [|split].
  - (* parse_value *)
    intros s Hf. cbn -[strip_prefix scan_number js parse_string_chars skip_ws].
    pose proof (skip_ws_length s) as Hs.
    destruct (skip_ws s) as [|c r] eqn:Es.
    { split; [discriminate|intros; discriminate]. }
    simpl in Hs.
    destruct (c =? 123)%N.
    { pose proof (skip_ws_length r) as Hr.
      destruct (skip_ws r) as [|d r'] eqn:Er.
      { split; [discriminate|intros; discriminate]. }
      simpl in Hr.
      destruct (d =? 125)%N.
      - split; [discriminate|]. intros v r0 H; inversion H; subst; lia.
      - destruct (IHm r [] ltac:(lia)) as [Hn Hl].
        split; [exact Hn|]. intros v r0 H. specialize (Hl _ _ H). lia. }
    destruct (c =? 91)%N.
    { pose proof (skip_ws_length r) as Hr.
      destruct (skip_ws r) as [|d r'] eqn:Er.
      { split; [discriminate|intros; discriminate]. }
      simpl in Hr.
      destruct (d =? 93)%N.
      - split; [discriminate|]. intros v r0 H; inversion H; subst; lia.
      - destruct (IHe r [] ltac:(lia)) as [Hn Hl].
        split; [exact Hn|]. intros v r0 H. specialize (Hl _ _ H). lia. }
    destruct (c =? 34)%N.
    { destruct (parse_string_chars r) as [[str r']|] eqn:E.
      - apply parse_string_chars_length in E.
        split; [discriminate|]. intros v r0 H; inversion H; subst; lia.
      - split; [discriminate|intros; discriminate]. }
    destruct (strip_prefix (js "true") (c :: r)) as [r1|] eqn:E1.
    { apply strip_prefix_length in E1. simpl in E1.
      split; [discriminate|]. intros v r0 H; inversion H; subst; lia. }
    destruct (strip_prefix (js "false") (c :: r)) as [r2|] eqn:E2.
    { apply strip_prefix_length in E2. simpl in E2.
      split; [discriminate|]. intros v r0 H; inversion H; subst; lia. }
    destruct (strip_prefix (js "null") (c :: r)) as [r3|] eqn:E3.
    { apply strip_prefix_length in E3. simpl in E3.
      split; [discriminate|]. intros v r0 H; inversion H; subst; lia. }
    destruct (scan_number (c :: r)) as [[lit r']|] eqn:E.
    + apply scan_number_length in E. simpl in E.
      split; [discriminate|]. intros v r0 H; inversion H; subst; lia.
    + split; [discriminate|intros; discriminate].
  - (* parse_elements *)
    intros s acc Hf. cbn -[strip_prefix scan_number js parse_string_chars skip_ws].
    destruct (IHv s ltac:(lia)) as [Hn Hl].
    destruct (parse_value f s) as [v r| |] eqn:E; [| |contradiction].
    + specialize (Hl _ _ eq_refl).
      pose proof (skip_ws_length r) as Hr.
      destruct (skip_ws r) as [|d r'] eqn:Er.
      { split; [discriminate|intros; discriminate]. }
      simpl in Hr.
      destruct (d =? 44)%N.
      * destruct (IHe r' (v :: acc) ltac:(lia)) as [Hn' Hl'].
        split; [exact Hn'|]. intros v0 r0 H. specialize (Hl' _ _ H). lia.
      * destruct (d =? 93)%N.
        -- split; [discriminate|]. intros v0 r0 H; inversion H; subst; lia.
        -- split; [discriminate|intros; discriminate].
    + split; [discriminate|intros; discriminate].
  - (* parse_members *)
    intros s acc Hf. cbn -[strip_prefix scan_number js parse_string_chars skip_ws].
    pose proof (skip_ws_length s) as Hs.
    destruct (skip_ws s) as [|q r] eqn:Es.
    { split; [discriminate|intros; discriminate]. }
    simpl in Hs.
    destruct (q =? 34)%N; [|split; [discriminate|intros; discriminate]].
    destruct (parse_string_chars r) as [[k r1]|] eqn:E;
      [|split; [discriminate|intros; discriminate]].
    apply parse_string_chars_length in E.
    pose proof (skip_ws_length r1) as Hr1.
    destruct (skip_ws r1) as [|d r2] eqn:Er1.
    { split; [discriminate|intros; discriminate]. }
    simpl in Hr1.
    destruct (d =? 58)%N; [|split; [discriminate|intros; discriminate]].
    destruct (IHv r2 ltac:(lia)) as [Hn Hl].
    destruct (parse_value f r2) as [v r3| |] eqn:Ev; [| |contradiction].
    + specialize (Hl _ _ eq_refl).
      pose proof (skip_ws_length r3) as Hr3.
      destruct (skip_ws r3) as [|e r4] eqn:Er3.
      { split; [discriminate|intros; discriminate]. }
      simpl in Hr3.
      destruct (e =? 44)%N.
      * destruct (IHm r4 ((k, v) :: acc) ltac:(lia)) as [Hn' Hl'].
        split; [exact Hn'|]. intros v0 r0 H. specialize (Hl' _ _ H). lia.
      * destruct (e =? 125)%N.
        -- split; [discriminate|]. intros v0 r0 H; inversion H; subst; lia.
        -- split; [discriminate|intros; discriminate].
    + split; [discriminate|intros; discriminate].
Qed.

(** [JSON_parse] answers [None] only for a text that is not JSON: its inner
    parse never stops for lack of fuel. *)
Lemma JSON_parse_fuel (text : JSString) :
  parse_value (2 * List.length text + 1) text <> PFuel.
Proof.
  apply (proj1 (parse_fuel (2 * List.length text + 1))). lia.
Qed.


Lemma replay_app (t1 t2 : list Event) (w : World) :
  replay (t1 ++ t2) w = replay t2 (replay t1 w).
Proof. apply fold_left_app. Qed.

Lemma trace_replay (t : list Event) (w : World) :
  trace (replay t w) = trace w ++ t.
Proof.
  revert w; induction t as [|e t IH]; intros w; simpl.
  - now rewrite app_nil_r.
  - rewrite IH. destruct e; simpl; now rewrite <- app_assoc.
Qed.

Lemma ls_apikey_replay (t : list Event) (w : World) :
  ls_apikey (replay t w) = ls_apikey w.
Proof.
  revert w; induction t as [|e t IH]; intros w; simpl; [reflexivity|].
  rewrite IH. destruct e; reflexivity.
Qed.

Lemma chat_messages_replay (t : list Event) (w : World) :
  chat_messages (replay t w) = chat_messages w ++ appended t.
Proof.
  revert w; induction t as [|e t IH]; intros w; simpl.
  - now rewrite app_nil_r.
  - rewrite IH. destruct e; simpl; try reflexivity. now rewrite <- app_assoc.
Qed.

Variable env : Env.

Lemma perform_eq (e : Event) (w : World) :
  perform e w = (inr tt, replay [e] w).
Proof. reflexivity. Qed.

(** [fetchAPIBackground] in one equation: the call is logged; if the key is
    missing or the request cannot be built the call throws at once; otherwise
    the request goes out and the result is what [fetch_settle] makes of the
    network's answer. *)
Lemma fetchAPIBackground_eq (site : Site) (a : CallArgs) (w : World) :
  fetchAPIBackground env site a w =
  match request_of (ls_apikey w) a with
  | inl e => (inl e, replay [EvCall site a] w)
  | inr req =>
      (fetch_settle (network env site), replay [EvCall site a; EvFetch site req] w)
  end.
Proof.
  unfold fetchAPIBackground, fetch_begin, bind, perform, modify, gets, lift.
  cbn [happen apply_event ls_apikey with_trace].
  destruct (request_of (ls_apikey w) a); reflexivity.
Qed.

Lemma fetch_begin_eq (site : Site) (a : CallArgs) (w : World) :
  fetch_begin site a w =
  match request_of (ls_apikey w) a with
  | inl e => (inl e, replay [EvCall site a] w)
  | inr req => (inr tt, replay [EvCall site a; EvFetch site req] w)
  end.
Proof.
  unfold fetch_begin, bind, perform, modify, gets, lift.
  cbn [happen apply_event ls_apikey with_trace].
  destruct (request_of (ls_apikey w) a); reflexivity.
Qed.

Lemma planning_eq (userText : JSValue) (userMsg : Message) (id : JSString) (w : World) :
  planning env userText userMsg id w =
  let a := planner_args (history_of (chat_messages w)) userText userMsg in
  let u1 := EvUpdateTerminal id (js "> Orchestrator analyzing request...") false in
  let u2 := EvUpdateTerminal id
              (js "> Orchestrator generated tasks. Dispatching to parallel workers...")
              false in
  match request_of (ls_apikey w) a with
  | inl e => (inl e, replay [u1; EvCall Planner a] w)
  | inr req =>
      let sent := [u1; EvCall Planner a; EvFetch Planner req] in
      match fetch_settle (network env Planner) with
      | inl e => (inl e, replay sent w)
      | inr reply =>
          match parsed_plan reply with
          | None =>
              (inl PlanningError_invalid,
               replay (sent ++ [EvConsoleError (js "Orchestrator JSON parse error")]) w)
          | Some tasks =>
              if plan_incomplete tasks
              then (inl PlanningError_missing, replay sent w)
              else (inr (history_of (chat_messages w), tasks), replay (sent ++ [u2]) w)
          end
      end
  end.
Proof.
  unfold planning, bind, updateTerminal, gets, parse_plan, console_error, throw, ret.
  rewrite perform_eq, fetchAPIBackground_eq.
  rewrite ls_apikey_replay, chat_messages_replay, app_nil_r.
  cbv zeta.
  destruct (request_of _ _) as [e|req]; [reflexivity|].
  destruct (fetch_settle _) as [e|reply]; [reflexivity|].
  destruct (parsed_plan reply) as [tasks|]; [|reflexivity].
  destruct (plan_incomplete tasks); reflexivity.
Qed.

Lemma dispatch_eq (tasks : JSValue) (id : JSString) (w : World) :
  dispatch env tasks id w =
  let aA := worker_args (get_field tasks (js "taskA")) in
  let aB := worker_args (get_field tasks (js "taskB")) in
  let u3 := EvUpdateTerminal id
              (js "> Workers A and B have completed execution. Synthesizing final output...")
              false in
  match request_of (ls_apikey w) aA, request_of (ls_apikey w) aB with
  | inl e, inl _ => (inl e, replay [EvCall WorkerA aA; EvCall WorkerB aB] w)
  | inl e, inr rb =>
      (inl e, replay [EvCall WorkerA aA; EvCall WorkerB aB; EvFetch WorkerB rb] w)
  | inr ra, inl e =>
      (inl e, replay [EvCall WorkerA aA; EvFetch WorkerA ra; EvCall WorkerB aB] w)
  | inr ra, inr rb =>
      let sent := [EvCall WorkerA aA; EvFetch WorkerA ra;
                   EvCall WorkerB aB; EvFetch WorkerB rb] in
      match promise_all env (inr tt) (inr tt) with
      | inl e => (inl e, replay sent w)
      | inr results => (inr results, replay (sent ++ [u3]) w)
      end
  end.
Proof.
  unfold dispatch, bind, settle, lift, updateTerminal, ret.
  rewrite fetch_begin_eq. cbv zeta.
  destruct (request_of (ls_apikey w) (worker_args (get_field tasks (js "taskA"))))
    as [ea|ra]; rewrite fetch_begin_eq, ls_apikey_replay;
  destruct (request_of (ls_apikey w) (worker_args (get_field tasks (js "taskB"))))
    as [eb|rb]; reflexivity.
Qed.

Lemma synthesis_eq (history : list HistTurn) (resultA resultB : JSValue) (w : World) :
  synthesis env history resultA resultB w =
  match to_string resultA with
  | inl e => (inl e, w)
  | inr a =>
      match to_string resultB with
      | inl e => (inl e, w)
      | inr b =>
          let args := synthesizer_args history a b in
          match request_of (ls_apikey w) args with
          | inl e => (inl e, replay [EvCall Synthesizer args] w)
          | inr req =>
              (fetch_settle (network env Synthesizer),
               replay [EvCall Synthesizer args; EvFetch Synthesizer req] w)
          end
      end
  end.
Proof.
  unfold synthesis, bind, lift.
  destruct (to_string resultA); [reflexivity|].
  destruct (to_string resultB); [reflexivity|].
  apply fetchAPIBackground_eq.
Qed.

Lemma finalize_eq (id : JSString) (finalResponse : JSValue) (w : World) :
  finalize env id finalResponse w =
  (inr tt, replay [EvRemoveTerminal id;
                   EvAppendMessage (assistant_message env finalResponse)] w).
Proof. reflexivity. Qed.

Lemma on_error_eq (id : JSString) (err : Exn) (w : World) :
  on_error id err w =
  (inr tt, replay [EvUpdateTerminal id (js "> Error: " ++ exn_message err) true;
                   EvToast (js "Agent Mode Error: " ++ exn_message err) (js "error");
                   EvConsoleError (exn_message err)] w).
Proof. reflexivity. Qed.

Lemma cleanup_eq (w : World) :
  cleanup w = replay [EvStreaming false; EvSendDisabled false] w.
Proof. reflexivity. Qed.

Lemma setup_eq (userText : JSValue) (w : World) :
  setup env userText w =
  (inr (user_message env userText (pendingImage w), terminal_id env),
   replay (setup_events env userText w) w).
Proof.
  unfold setup, setup_events, bind, gets, clearImage, appendMessage, createTerminalBubble,
    updateTerminal, bind, ret.
  destruct (pendingImage w); reflexivity.
Qed.


Lemma removelast_snoc {A} (l : list A) (x : A) : removelast (l ++ [x]) = l.
Proof. rewrite removelast_app by discriminate. simpl. apply app_nil_r. Qed.

Lemma phases_app (t1 t2 : list Event) : phases (t1 ++ t2) = phases t1 ++ phases t2.
Proof. apply flat_map_app. Qed.

Lemma calls_app (t1 t2 : list Event) : calls (t1 ++ t2) = calls t1 ++ calls t2.
Proof. apply flat_map_app. Qed.

Lemma requests_app (t1 t2 : list Event) : requests (t1 ++ t2) = requests t1 ++ requests t2.
Proof. apply flat_map_app. Qed.

Lemma appended_app (t1 t2 : list Event) : appended (t1 ++ t2) = appended t1 ++ appended t2.
Proof. apply flat_map_app. Qed.

Lemma appended_setup (userText : JSValue) (w : World) :
  appended (setup_events env userText w) = [user_message env userText (pendingImage w)].
Proof. unfold setup_events. destruct (pendingImage w); reflexivity. Qed.

Lemma phases_setup (userText : JSValue) (w : World) :
  phases (setup_events env userText w) = [].
Proof. unfold setup_events. destruct (pendingImage w); reflexivity. Qed.

Lemma calls_setup (userText : JSValue) (w : World) :
  calls (setup_events env userText w) = [].
Proof. unfold setup_events. destruct (pendingImage w); reflexivity. Qed.

Lemma requests_setup (userText : JSValue) (w : World) :
  requests (setup_events env userText w) = [].
Proof. unfold setup_events. destruct (pendingImage w); reflexivity. Qed.

(** After the setup, [history] is the chat as it was before the run. *)
Lemma history_after_setup (userText : JSValue) (w : World) :
  history_of (chat_messages (replay (setup_events env userText w) w)) = history_before w.
Proof.
  rewrite chat_messages_replay, appended_setup. unfold history_of.
  now rewrite removelast_snoc.
Qed.

(** The structure of a run on a truthy text: the setup, the pipeline, the
    [catch] clause when the pipeline threw, and the [finally] clause. *)
Lemma runAgentMode_eq (userText : JSValue) (w : World) :
  truthy userText = true ->
  runAgentMode env userText w =
  let w0 := replay (setup_events env userText w) w in
  let (r, w1) := pipeline env userText (user_message env userText (pendingImage w))
                   (terminal_id env) w0 in
  (inr tt,
   replay [EvStreaming false; EvSendDisabled false]
     match r with
     | inl err =>
         replay [EvUpdateTerminal (terminal_id env) (js "> Error: " ++ exn_message err) true;
                 EvToast (js "Agent Mode Error: " ++ exn_message err) (js "error");
                 EvConsoleError (exn_message err)] w1
     | inr _ => w1
     end).
Proof.
  intros H. unfold runAgentMode. rewrite H. cbn [negb].
  unfold bind. rewrite setup_eq. cbn [fst snd].
  unfold try_finally, try_catch. cbv zeta.
  destruct (pipeline _ _ _ _ _) as [[err|[]] w1]; reflexivity.
Qed.

Ltac head_scrutinee t :=
  match t with
  | match ?x with _ => _ end => head_scrutinee x
  | match ?x with _ => _ end => x
  | ?f _ => head_scrutinee f
  end.

(** One step of the symbolic run of [pipeline] kept in hypothesis [H]: a
    phase is replaced by its equation, or the test the run is waiting for is
    split into its cases. *)
Ltac pipeline_step H :=
  first
    [ rewrite planning_eq in H
    | rewrite dispatch_eq in H
    | rewrite synthesis_eq in H
    | rewrite finalize_eq in H
    | progress (rewrite ?ls_apikey_replay, ?history_after_setup in H)
    | progress (cbv beta iota zeta in H; cbn [fst snd] in H)
    | match type of H with
      | ?lhs = _ => let x := head_scrutinee lhs in destruct x eqn:?
      end ].

Ltac pipeline_cases H :=
  unfold pipeline, bind in H;
  repeat pipeline_step H;
  apply pair_equal_spec in H; destruct H as [<- <-];
  rewrite <- ?replay_app.

Lemma promise_all_inr (x y : JSValue) :
  promise_all env (inr tt) (inr tt) = inr (x, y) ->
  fetch_settle (network env WorkerA) = inr x /\
  fetch_settle (network env WorkerB) = inr y.
Proof.
  unfold promise_all.
  destruct (fetch_settle (network env WorkerA)), (fetch_settle (network env WorkerB)),
    (first_settled env); intros H; inversion H; auto.
Qed.

Lemma promise_all_inl (e : Exn) :
  promise_all env (inr tt) (inr tt) = inl e ->
  fetch_settle (network env WorkerA) = inl e \/
  fetch_settle (network env WorkerB) = inl e.
Proof.
  unfold promise_all.
  destruct (fetch_settle (network env WorkerA)), (fetch_settle (network env WorkerB)),
    (first_settled env); intros H; inversion H; auto.
Qed.

(** What a joint success of the workers says of each of them. *)
Ltac use_settled :=
  repeat match goal with
         | H : promise_all _ _ _ = inr ?p |- _ =>
             first [ is_var p; destruct p | idtac ];
             apply promise_all_inr in H; destruct H
         end.

(** The tests met on the way decide the tests of the goal. *)
Ltac rewrite_tests :=
  repeat match goal with
         | H : fetch_settle _ = _ |- _ => rewrite H
         | H : parsed_plan _ = _ |- _ => rewrite H
         | H : plan_incomplete _ = _ |- _ => rewrite H
         end.

Ltac split_run userText w Ht t :=
  rewrite (runAgentMode_eq userText w Ht); cbv zeta;
  let r := fresh "r" in let w1 := fresh "w1" in let Hp := fresh "Hp" in
  destruct (pipeline _ _ _ _ _) as [r w1] eqn:Hp;
  pipeline_cases Hp;
  cbn [snd]; rewrite trace_replay;
  match goal with |- context [trace w ++ ?l] => set (t := l) end.

(** What a joint failure of the workers says of them. *)
Ltac use_rejected :=
  repeat match goal with
         | H : promise_all _ _ _ = inl _ |- _ =>
             apply promise_all_inl in H; destruct H
         end.

(** The conversions met on the way decide those of the goal. *)
Ltac rewrite_casts :=
  repeat match goal with
         | H : to_string _ = _ |- _ => rewrite H
         end.

(** C1.  In every run the calls appear in the trace in the order planner,
    worker A, worker B, synthesizer, and then the append of the assistant
    turn; the run may stop after any of these stages, and both workers are
    always called together.  A later stage is there only if the earlier
    calls sent their request and were answered (and, for the workers, the
    plan was accepted).  In particular, when either worker call fails, the
    trace holds no synthesizer call and no assistant turn, whatever the
    other worker did.  And every stage does run once the earlier ones have
    succeeded: the planner is called on every truthy text; both workers are
    called when the planner was answered with a plan that is accepted; the
    synthesizer is called when both workers were answered and their results
    can be turned into text, and only then; the assistant turn is appended
    when the synthesizer was answered. *)
Theorem phases_in_order (userText : JSValue) (w : World) :
  exists t, trace (snd (runAgentMode env userText w)) = trace w ++ t /\
    (phases t = [] \/ phases t = [Planning]
     \/ phases t = [Planning; DispatchA; DispatchB]
     \/ phases t = [Planning; DispatchA; DispatchB; Synthesis]
     \/ phases t = [Planning; DispatchA; DispatchB; Synthesis; Finalization]) /\
    (In DispatchA (phases t) ->
       answered env Planner t = true /\ plan_accepted env = true) /\
    (In Synthesis (phases t) ->
       answered env WorkerA t = true /\ answered env WorkerB t = true) /\
    (In Finalization (phases t) -> answered env Synthesizer t = true) /\
    (answered env WorkerA t = false \/ answered env WorkerB t = false ->
       ~ In Synthesis (phases t) /\ ~ In Finalization (phases t)) /\
    (truthy userText = true -> In Planning (phases t)) /\
    (answered env Planner t = true -> plan_accepted env = true ->
       In DispatchA (phases t) /\ In DispatchB (phases t)) /\
    (answered env WorkerA t = true -> answered env WorkerB t = true ->
       results_convertible env = true -> In Synthesis (phases t)) /\
    (In Synthesis (phases t) -> results_convertible env = true) /\
    (answered env Synthesizer t = true -> In Finalization (phases t)).
Proof.
  destruct (truthy userText) eqn:Ht.
  2:{ exists []. unfold runAgentMode. rewrite Ht. simpl. rewrite app_nil_r.
      repeat split; auto; try contradiction; try discriminate. }
  split_run userText w Ht t.
  all: exists t; split; [reflexivity|].
  all: subst t; use_settled; use_rejected; cbn [fst snd] in *.
  all: unfold answered, plan_accepted, results_convertible.
  all: rewrite ?phases_app, ?requests_app, ?phases_setup, ?requests_setup.
  all: cbn -[js exn_message terminal_id to_string]; rewrite_tests; rewrite_casts.
  all: cbn [succeeded andb].
  all: intuition (try discriminate; try congruence).
  all: do 4 right; left; reflexivity.
Qed.

Lemma plan_rejected_incomplete (reply tasks : JSValue) :
  plan_rejected reply -> parsed_plan reply = Some tasks -> plan_incomplete tasks = true.
Proof.
  intros [H|[tasks' [H [Ha|Hb]]]] E; rewrite E in H; inversion H; subst;
    unfold plan_incomplete.
  - rewrite Ha. simpl. now rewrite orb_true_r.
  - rewrite Hb. simpl. now rewrite orb_true_r.
Qed.

(** C3.  When the planner call is answered by a reply that does not parse as
    JSON, or whose parsed value lacks a non-empty [taskA] or [taskB], the run
    reports a planning error (the invalid-plan error in the first case, the
    missing-task error in the second) on the terminal and in a toast, the
    planner call is the only call and the only request of the run, and the
    chat gains the user turn only. *)
Theorem rejected_plan_aborts (userText reply : JSValue) (w : World) (req : Request) :
  truthy userText = true ->
  request_of (ls_apikey w)
    (planner_args (history_before w) userText
       (user_message env userText (pendingImage w))) = inr req ->
  fetch_settle (network env Planner) = inr reply ->
  plan_rejected reply ->
  let w' := snd (runAgentMode env userText w) in
  exists t,
    trace w' = trace w ++ t /\
    In (EvToast (js "Agent Mode Error: " ++ exn_message (planning_error reply)) (js "error")) t /\
    In (EvUpdateTerminal (terminal_id env)
          (js "> Error: " ++ exn_message (planning_error reply)) true) t /\
    phases t = [Planning] /\
    requests t = [(Planner, req)] /\
    appended t = [user_message env userText (pendingImage w)].
Proof.
  intros Ht Hreq Hreply Hrej w'. subst w'.
  split_run userText w Ht t.
  all: rewrite Hreq in *; try discriminate.
  all: rewrite Hreply in *; try discriminate.
  all: repeat match goal with
              | H : inr _ = inr _ |- _ => injection H as <-
              end.
  all: try match goal with
           | H : parsed_plan _ = Some _ |- _ =>
               pose proof (plan_rejected_incomplete Hrej H); try congruence
           end.
  all: exists t; split; [reflexivity|]; subst t.
  all: unfold planning_error; rewrite_tests.
  all: rewrite ?phases_app, ?requests_app, ?appended_app, ?phases_setup,
         ?requests_setup, ?appended_setup.
  all: repeat split; try reflexivity.
  all: rewrite ?in_app_iff; cbn [In]; auto 10.
Qed.


Lemma formattedHistory_text_only (h : list HistTurn) (ts : list Turn) :
  formattedHistory h = inr ts ->
  existsb (fun turn => existsb is_inline (parts turn)) ts = false.
Proof.
  revert ts; induction h as [|m h IH]; simpl; intros ts H.
  - inversion H; reflexivity.
  - destruct (to_string _); [discriminate|]. simpl in H.
    destruct (formattedHistory h) as [|rest]; [discriminate|].
    simpl in H. inversion H; subst. simpl. now apply IH.
Qed.

Lemma personaPrefix_text_only (p : JSValue) (ts : list Turn) :
  personaPrefix p = inr ts ->
  existsb (fun turn => existsb is_inline (parts turn)) ts = false.
Proof.
  unfold personaPrefix. destruct (truthy p).
  - destruct (to_string p); simpl; intros H; inversion H; reflexivity.
  - intros H; inversion H; reflexivity.
Qed.

(** A call made without an image sends none. *)
Lemma request_without_image (stored : option JSString) (a : CallArgs) (req : Request) :
  arg_imageBase64 a = JNull ->
  request_of stored a = inr req ->
  carries_image req = false.
Proof.
  intros Hi. unfold request_of, build_request.
  destruct (negb _); [discriminate|].
  destruct (to_string (js_or (arg_modelOverride a) _)); [discriminate|]. simpl.
  destruct (to_string (js_or (arg_newUserText a) _)); [discriminate|]. simpl.
  rewrite Hi. simpl.
  destruct (personaPrefix _) as [|prefix] eqn:Hp; [discriminate|]. simpl.
  destruct (formattedHistory _) as [|hist] eqn:Hh; [discriminate|]. simpl.
  intros H; inversion H; subst. unfold carries_image. simpl.
  rewrite !existsb_app, (personaPrefix_text_only _ Hp), (formattedHistory_text_only _ Hh).
  reflexivity.
Qed.

(** What a worker is sent. *)
Lemma request_of_worker (stored : option JSString) (task : JSValue) (req : Request) :
  truthy task = true ->
  request_of stored (worker_args task) = inr req ->
  exists text, ToString task = Some text /\ contents req = worker_contents text.
Proof.
  intros Ht. unfold request_of, build_request, worker_args, to_string, js_or. simpl.
  destruct (negb _); [discriminate|].
  rewrite Ht. destruct (ToString task) as [text|]; [|discriminate].
  simpl. intros H; inversion H; subst. exists text. split; reflexivity.
Qed.

Lemma plan_complete_tasks (tasks : JSValue) :
  plan_incomplete tasks = false ->
  truthy (get_field tasks (js "taskA")) = true /\
  truthy (get_field tasks (js "taskB")) = true.
Proof.
  unfold plan_incomplete. intros H.
  apply orb_false_elim in H as [H Hb]. apply orb_false_elim in H as [_ Ha].
  apply negb_false_iff in Ha, Hb. auto.
Qed.

Ltac in_cases :=
  repeat match goal with
         | H : In _ (_ :: _) |- _ => destruct H as [H|H]
         | H : In _ [] |- _ => destruct H
         | H : (_, _) = (_, _) |- _ => inversion H; subst; clear H
         end.

(** C5.  Every worker call of a run has an empty history and no image, and
    the request it sends holds the two turns of the worker prompt and one
    user turn whose only part is the text of its task.  That task is the
    member of the plan parsed from the planner's reply, [taskA] for worker A
    and [taskB] for worker B: it is the text argument of the call, and, cast
    to a string, the only text the request carries beside the prompt.  The
    synthesizer call has no image either, and no request but the planner's
    carries an inline image. *)
Theorem workers_are_isolated (userText : JSValue) (w : World) :
  exists t,
    trace (snd (runAgentMode env userText w)) = trace w ++ t /\
    (forall s a, In (s, a) (calls t) -> s = WorkerA \/ s = WorkerB ->
       arg_history a = [] /\ arg_imageBase64 a = JNull) /\
    (forall a, In (Synthesizer, a) (calls t) -> arg_imageBase64 a = JNull) /\
    (forall s req, In (s, req) (requests t) -> s = WorkerA \/ s = WorkerB ->
       exists task text,
         In (s, worker_args task) (calls t) /\
         ToString task = Some text /\
         contents req = worker_contents text) /\
    (forall s req, In (s, req) (requests t) -> s <> Planner ->
       carries_image req = false) /\
    (forall s a, In (s, a) (calls t) -> s = WorkerA \/ s = WorkerB ->
       exists reply tasks,
         fetch_settle (network env Planner) = inr reply /\
         parsed_plan reply = Some tasks /\
         arg_newUserText a = get_field tasks (task_key s) /\
         arg_systemPrompt a = JStr workerSystemPrompt) /\
    (forall s req, In (s, req) (requests t) -> s = WorkerA \/ s = WorkerB ->
       exists reply tasks text,
         fetch_settle (network env Planner) = inr reply /\
         parsed_plan reply = Some tasks /\
         ToString (get_field tasks (task_key s)) = Some text /\
         contents req = worker_contents text).
Proof.
  destruct (truthy userText) eqn:Ht.
  2:{ exists []. unfold runAgentMode. rewrite Ht. simpl. rewrite app_nil_r.
      repeat split; intros; contradiction. }
  split_run userText w Ht t.
  all: exists t; split; [reflexivity|]; subst t.
  all: rewrite ?calls_app, ?requests_app, ?calls_setup, ?requests_setup.
  all: cbn [calls requests flat_map app].
  all: repeat match goal with
              | H : plan_incomplete _ = false |- _ =>
                  apply plan_complete_tasks in H; destruct H
              end.
  all: repeat split; intros; in_cases; try discriminate; try congruence; auto.
  all: try match goal with
           | H : _ = WorkerA \/ _ = WorkerB |- _ => now destruct H
           end.
  all: try match goal with
           | |- carries_image ?r = false =>
               match goal with
               | H : request_of _ _ = inr r |- _ =>
                   refine (@request_without_image _ _ _ _ H); reflexivity
               end
           end.
  all: first
         [ solve [ do 2 eexists; repeat split; eassumption || reflexivity ]
         | match goal with
           | H : request_of _ (worker_args ?task) = inr _,
             T : truthy ?task = true |- _ =>
               destruct (@request_of_worker _ _ _ T H) as [text [? ?]];
               first
                 [ exists task, text; solve [repeat split; cbn [In]; auto 10]
                 | solve [ do 2 eexists; exists text;
                           repeat split; eassumption || reflexivity ] ]
           end ].
Qed.


(* ------------------------------------------------------------------ *)
(** *** The terminal bubble *)




Lemma str_eqb_refl (s : JSString) : str_eqb s s = true.
Proof. induction s as [|c s IH]; simpl; [reflexivity|]. now rewrite N.eqb_refl. Qed.

Lemma str_eqb_eq (a b : JSString) : str_eqb a b = true -> a = b.
Proof.
  revert b; induction a as [|x a IH]; intros [|y b]; simpl; intros H;
    try discriminate; [reflexivity|].
  apply andb_true_iff in H as [Hx Hr]. apply N.eqb_eq in Hx.
  now rewrite Hx, (IH _ Hr).
Qed.

(** The element an id designates after an update of that id. *)
Lemma getElementById_update (id text : JSString) (isError : bool) (d : list TermBubble) :
  getElementById id (update_first id text isError d) =
  match getElementById id d with
  | Some b => Some {| tb_id := tb_id b; tb_text := text;
                      tb_danger := isError || tb_danger b |}
  | None => None
  end.
Proof.
  induction d as [|b d IH]; simpl; [reflexivity|].
  destruct (str_eqb (tb_id b) id) eqn:E; simpl; rewrite E; [reflexivity|exact IH].
Qed.

(** Once a bubble of the id is appended, the id designates an element. *)
Lemma getElementById_snoc (id : JSString) (d : list TermBubble) (b : TermBubble) :
  tb_id b = id ->
  getElementById id (d ++ [b]) =
  match getElementById id d with
  | Some b' => Some b'
  | None => Some b
  end.
Proof.
  intros Hb. induction d as [|x d IH]; simpl.
  - now rewrite Hb, str_eqb_refl.
  - destruct (str_eqb (tb_id x) id); [reflexivity|exact IH].
Qed.

(** With no earlier element of the id, an update and a removal reach the
    bubble appended last. *)
Lemma update_first_fresh (id text : JSString) (isError : bool)
      (d : list TermBubble) (b : TermBubble) :
  getElementById id d = None -> tb_id b = id ->
  update_first id text isError (d ++ [b]) =
  d ++ [{| tb_id := id; tb_text := text; tb_danger := isError || tb_danger b |}].
Proof.
  intros Hd Hb. induction d as [|x d IH]; simpl in *.
  - now rewrite Hb, str_eqb_refl.
  - destruct (str_eqb (tb_id x) id); [discriminate|]. now rewrite IH.
Qed.

Lemma remove_first_fresh (id : JSString) (d : list TermBubble) (b : TermBubble) :
  getElementById id d = None -> tb_id b = id ->
  remove_first id (d ++ [b]) = d.
Proof.
  intros Hd Hb. induction d as [|x d IH]; simpl in *.
  - now rewrite Hb, str_eqb_refl.
  - destruct (str_eqb (tb_id x) id); [discriminate|]. now rewrite IH.
Qed.

(** With an older element of the id, an update and a removal stop at it and
    leave what follows, a bubble appended since included, as it is. *)
Lemma update_first_app (id text : JSString) (isError : bool)
      (d x : list TermBubble) (b : TermBubble) :
  getElementById id d = Some b ->
  update_first id text isError (d ++ x) = update_first id text isError d ++ x.
Proof.
  induction d as [|y d IH]; cbn [app update_first getElementById]; [discriminate|].
  destruct (str_eqb (tb_id y) id); [reflexivity|]. intros H. now rewrite IH.
Qed.

Lemma remove_first_app (id : JSString) (d x : list TermBubble) (b : TermBubble) :
  getElementById id d = Some b ->
  remove_first id (d ++ x) = remove_first id d ++ x.
Proof.
  induction d as [|y d IH]; cbn [app remove_first getElementById]; [discriminate|].
  destruct (str_eqb (tb_id y) id); [reflexivity|]. intros H. now rewrite IH.
Qed.



(** The segments of a right-nested append, and the first [k] of them. *)
Ltac count_segments l :=
  lazymatch l with
  | ?a ++ ?r => let n := count_segments r in constr:(S n)
  | _ => constr:(1%nat)
  end.

Ltac take_segments k l :=
  lazymatch k with
  | O => constr:(@nil Event)
  | S ?k' =>
      lazymatch l with
      | ?a ++ ?r => let p := take_segments k' r in constr:(a ++ p)
      end
  end.








(* ------------------------------------------------------------------ *)
(** *** The input of the synthesizer *)

Lemma trimEnd_spaces (s : JSString) :
  forallb is_js_space s = true -> trimEnd s = [].
Proof.
  induction s as [|c s IH]; simpl; [reflexivity|].
  intros H. apply andb_true_iff in H as [Hc Hs]. now rewrite (IH Hs), Hc.
Qed.

Lemma trimEnd_app_spaces (x s : JSString) :
  forallb is_js_space s = true -> trimEnd (x ++ s) = trimEnd x.
Proof.
  intros Hs. induction x as [|c x IH]; simpl.
  - now apply trimEnd_spaces.
  - now rewrite IH.
Qed.

Lemma trimEnd_after_nonspace (p r : JSString) (c : codeunit) :
  is_js_space c = false -> trimEnd (p ++ c :: r) = p ++ c :: trimEnd r.
Proof.
  intros Hc. induction p as [|x p IH]; simpl.
  - rewrite Hc. now destruct (trimEnd r).
  - rewrite IH. now destruct p.
Qed.

Lemma trim_template (la lb a b : JSString) (c0 c1 : codeunit) :
  is_js_space c0 = false -> is_js_space c1 = false ->
  trim (nl ++ (c0 :: la) ++ nl ++ a ++ nl ++ nl ++ (lb ++ [c1]) ++ nl ++ b
           ++ nl ++ js "    ") =
  (c0 :: la) ++ nl ++ a ++ nl ++ nl ++ (lb ++ [c1]) ++ trimEnd (nl ++ b).
Proof.
  intros H0 H1. unfold trim.
  cbn [nl app trimStart]. change (is_js_space 10%N) with true. cbv iota. rewrite H0.
  match goal with
  | |- trimEnd ?x = _ =>
      replace x
        with (((c0 :: la) ++ nl ++ a ++ nl ++ nl ++ lb) ++ c1 :: (nl ++ b) ++ nl ++ js "    ")
        by (unfold nl; rewrite <- ?app_assoc; reflexivity)
  end.
  rewrite trimEnd_after_nonspace by assumption.
  rewrite trimEnd_app_spaces by reflexivity.
  unfold nl; rewrite <- ?app_assoc; reflexivity.
Qed.

(** [combinedInput] in closed form: section A holds [a] as it is; section B
    holds [b] without its trailing white space, and nothing when [b] is all
    white space. *)
Lemma combinedInput_eq (a b : JSString) :
  combinedInput a b =
  label_A ++ nl ++ a ++ nl ++ nl ++ label_B ++
  match trimEnd b with
  | [] => []
  | b' => nl ++ b'
  end.
Proof.
  unfold combinedInput, combined_template.
  change (js "--- WORKER A OUTPUT ---") with (45%N :: js "-- WORKER A OUTPUT ---").
  change (js "--- WORKER B OUTPUT ---") with (js "--- WORKER B OUTPUT --" ++ [45%N]).
  rewrite trim_template by reflexivity.
  unfold label_A, label_B.
  change (js "--- WORKER A OUTPUT ---") with (45%N :: js "-- WORKER A OUTPUT ---").
  change (js "--- WORKER B OUTPUT ---") with (js "--- WORKER B OUTPUT --" ++ [45%N]).
  reflexivity.
Qed.


Lemma to_string_inr (v : JSValue) (s : JSString) :
  to_string v = inr s -> ToString v = Some s.
Proof. unfold to_string. destruct (ToString v); intros H; inversion H; reflexivity. Qed.

(** With both workers answered, which of them settled first plays no part. *)
Lemma promise_all_first_settled (first : Worker) (pa pb : Result unit) :
  succeeded (fetch_settle (network env WorkerA)) = true ->
  succeeded (fetch_settle (network env WorkerB)) = true ->
  promise_all (with_first_settled env first) pa pb = promise_all env pa pb.
Proof.
  unfold promise_all. cbn [network with_first_settled].
  destruct pa, pb; try reflexivity.
  destruct (fetch_settle (network env WorkerA)), (fetch_settle (network env WorkerB));
    simpl; intros; try discriminate; reflexivity.
Qed.

Lemma run_order_independent (userText : JSValue) (w : World) (first : Worker) :
  succeeded (fetch_settle (network env WorkerA)) = true ->
  succeeded (fetch_settle (network env WorkerB)) = true ->
  runAgentMode (with_first_settled env first) userText w = runAgentMode env userText w.
Proof.
  intros HA HB. unfold runAgentMode.
  destruct (negb (truthy userText)); [reflexivity|].
  unfold bind.
  change (setup (with_first_settled env first)) with (setup env).
  destruct (setup env userText w) as [[e|s] w0]; [reflexivity|].
  unfold try_finally, try_catch, pipeline, bind.
  change (planning (with_first_settled env first)) with (planning env).
  destruct (planning env userText (fst s) (snd s) w0) as [[e|plan] w1]; [reflexivity|].
  assert (Hd : dispatch (with_first_settled env first) (snd plan) (snd s) w1 =
               dispatch env (snd plan) (snd s) w1).
  { unfold dispatch, bind, settle.
    destruct (fetch_begin WorkerA _ w1) as [pa wa].
    destruct (fetch_begin WorkerB _ wa) as [pb wb].
    unfold lift. now rewrite (promise_all_first_settled first pa pb HA HB). }
  rewrite Hd.
  destruct (dispatch env (snd plan) (snd s) w1) as [[e|results] w2]; reflexivity.
Qed.

Lemma synthesizer_text (userText : JSValue) (w : World) :
  exists t,
    trace (snd (runAgentMode env userText w)) = trace w ++ t /\
    (forall a, In (Synthesizer, a) (calls t) ->
       exists resultA resultB textA textB,
         fetch_settle (network env WorkerA) = inr resultA /\
         fetch_settle (network env WorkerB) = inr resultB /\
         ToString resultA = Some textA /\
         ToString resultB = Some textB /\
         arg_newUserText a = JStr (combinedInput textA textB)).
Proof.
  destruct (truthy userText) eqn:Ht.
  2:{ exists []. unfold runAgentMode. rewrite Ht. simpl. rewrite app_nil_r.
      split; [reflexivity|]. intros; contradiction. }
  split_run userText w Ht t.
  all: exists t; split; [reflexivity|]; subst t.
  all: rewrite ?calls_app, calls_setup; cbn [calls flat_map app].
  all: intros a Ha; in_cases; try discriminate.
  all: use_settled.
  all: repeat match goal with
              | H : to_string _ = inr _ |- _ => apply to_string_inr in H
              end.
  all: cbn [fst snd] in *.
  all: do 4 eexists; repeat split; eassumption.
Qed.

(** C4, as amended.  The text the synthesizer call is given is the label of
    section A, a line feed, worker A's output as it is, an empty line, the
    label of section B and, unless worker B's output is all white space, a
    line feed and that output without its trailing white space.  The run is
    the same whichever worker promise settles first, once both succeed. *)
Theorem synthesizer_input (userText : JSValue) (w : World) :
  exists t,
    trace (snd (runAgentMode env userText w)) = trace w ++ t /\
    (forall a, In (Synthesizer, a) (calls t) ->
       exists resultA resultB textA textB,
         fetch_settle (network env WorkerA) = inr resultA /\
         fetch_settle (network env WorkerB) = inr resultB /\
         ToString resultA = Some textA /\
         ToString resultB = Some textB /\
         arg_newUserText a =
           JStr (label_A ++ nl ++ textA ++ nl ++ nl ++ label_B ++
                 match trimEnd textB with
                 | [] => []
                 | b' => nl ++ b'
                 end)) /\
    (forall first,
       succeeded (fetch_settle (network env WorkerA)) = true ->
       succeeded (fetch_settle (network env WorkerB)) = true ->
       runAgentMode (with_first_settled env first) userText w =
       runAgentMode env userText w).
Proof.
  destruct (synthesizer_text userText w) as [t [Ht Ha]].
  exists t. split; [exact Ht|]. split.
  - intros a Hin. destruct (Ha a Hin) as (ra & rb & ta & tb & HA & HB & HtA & HtB & Harg).
    exists ra, rb, ta, tb. rewrite Harg, combinedInput_eq. auto.
  - intros first HA HB. now apply run_order_independent.
Qed.

(* ------------------------------------------------------------------ *)
(** *** The transport *)

(** C8.  With no stored key, or an empty one, [fetchAPIBackground] throws
    [MissingCredential] whatever its arguments, and the call itself is the
    only event: no request is given to [fetch]. *)
Theorem missing_key_fails_fast (site : Site) (a : CallArgs) (w : World) :
  ls_apikey w = None \/ ls_apikey w = Some [] ->
  fetchAPIBackground env site a w = (inl MissingCredential, replay [EvCall site a] w) /\
  exists t,
    trace (snd (fetchAPIBackground env site a w)) = trace w ++ t /\
    requests t = [].
Proof.
  intros Hkey. rewrite fetchAPIBackground_eq.
  assert (E : request_of (ls_apikey w) a = inl MissingCredential)
    by (destruct Hkey as [-> | ->]; reflexivity).
  rewrite E. split; [reflexivity|].
  exists [EvCall site a]. split; [apply trace_replay|reflexivity].
Qed.

(** C9, as amended.  Once the key is there and the request is built, the
    call throws when [fetch] rejects, when the response is not ok and when
    the body of an ok response is not JSON.  For a response that is not ok
    the error carries the vendor's message, cast to a string, when that
    message is truthy, and [HTTP] and the status otherwise; a truthy message
    that cannot be cast to a string makes the throw a TypeError.  On an ok
    response with a JSON body the call returns the first text part, or the
    empty string when that part is absent or falsy. *)
Theorem transport_outcome (site : Site) (a : CallArgs) (w : World) (req : Request) :
  request_of (ls_apikey w) a = inr req ->
  let r := fst (fetchAPIBackground env site a w) in
  match network env site with
  | NetRejected m => r = inl (Rejection m)
  | NetResponse res =>
      if ok res then
        match body res with
        | BodyInvalid m => r = inl (Rejection m)
        | BodyValue data =>
            r = inr (if truthy (first_text data) then first_text data else JStr [])
        end
      else
        succeeded r = false /\
        (truthy (vendor_message res) = false ->
           r = inl (ErrorObj (js "HTTP " ++ N_to_js (status res)))) /\
        (forall s, truthy (vendor_message res) = true ->
           ToString (vendor_message res) = Some s -> r = inl (ErrorObj s)) /\
        (truthy (vendor_message res) = true ->
           ToString (vendor_message res) = None ->
           r = inl (TypeErrorOf CannotConvert))
  end.
Proof.
  intros Hreq r. subst r. rewrite fetchAPIBackground_eq, Hreq. cbn [fst].
  unfold fetch_settle.
  destruct (network env site) as [m|res]; [reflexivity|].
  destruct (ok res); cbn [negb].
  - destruct (body res); reflexivity.
  - fold (vendor_message res).
    destruct (truthy (vendor_message res)).
    + destruct (ToString (vendor_message res)) as [s|];
        repeat split; intros; try discriminate; congruence.
    + repeat split; intros; discriminate.
Qed.

(* ------------------------------------------------------------------ *)
(** *** The plan *)

Lemma no_backtick_app (a b : JSString) :
  no_backtick (a ++ b) = no_backtick a && no_backtick b.
Proof. apply forallb_app. Qed.

Lemma remove_all_from_skip (pat p s : JSString) :
  remove_all_from pat (p ++ s) (List.length p) = remove_all_from pat s 0.
Proof.
  induction p as [|c p IH]; simpl; [reflexivity|exact IH].
Qed.

(** A text without backticks passes a pattern that starts with one. *)
Lemma remove_all_from_clean (pat x s : JSString) :
  no_backtick x = true ->
  remove_all_from (96%N :: pat) (x ++ s) 0 = x ++ remove_all_from (96%N :: pat) s 0.
Proof.
  intros Hx. induction x as [|c x IH]; [reflexivity|].
  simpl in Hx. apply andb_true_iff in Hx as [Hc Hx].
  cbn [app remove_all_from starts_with].
  apply negb_true_iff in Hc. rewrite N.eqb_sym in Hc. rewrite Hc. cbn [andb].
  now rewrite IH.
Qed.

Lemma trimStart_app_spaces (lead x : JSString) :
  forallb is_js_space lead = true -> trimStart (lead ++ x) = trimStart x.
Proof.
  induction lead as [|c lead IH]; simpl; [reflexivity|].
  intros H. apply andb_true_iff in H as [Hc Hl]. rewrite Hc. now apply IH.
Qed.

(** White space around a text that starts and ends with something else. *)
Lemma trim_between (lead mid tail : JSString) (c0 c1 : codeunit) :
  forallb is_js_space lead = true -> forallb is_js_space tail = true ->
  is_js_space c0 = false -> is_js_space c1 = false ->
  trim (lead ++ (c0 :: mid ++ [c1]) ++ tail) = c0 :: mid ++ [c1].
Proof.
  intros Hl Ht H0 H1. unfold trim.
  rewrite trimStart_app_spaces by assumption.
  cbn [app trimStart]. rewrite H0.
  change (c0 :: (mid ++ [c1]) ++ tail) with ((c0 :: mid ++ [c1]) ++ tail).
  rewrite trimEnd_app_spaces by assumption.
  change (c0 :: mid ++ [c1]) with ((c0 :: mid) ++ c1 :: []).
  now rewrite trimEnd_after_nonspace.
Qed.

(** An object literal between the fences comes out as it is. *)
Lemma cleanJson_fenced_object (members : JSString) :
  no_backtick members = true ->
  cleanJson (js "```json" ++ nl ++ (js "{" ++ members ++ js "}") ++ nl ++ js "```") =
  js "{" ++ members ++ js "}".
Proof.
  intros Hm. unfold cleanJson.
  assert (Hclean : no_backtick (nl ++ (js "{" ++ members ++ js "}") ++ nl) = true).
  { rewrite !no_backtick_app, Hm. reflexivity. }
  assert (H1 : remove_all (js "```json")
                 (js "```json" ++ nl ++ (js "{" ++ members ++ js "}") ++ nl ++ js "```")
               = (nl ++ (js "{" ++ members ++ js "}") ++ nl) ++ js "```").
  { change (remove_all (js "```json") ?s) with (remove_all_from (js "```json") s 0).
    change (js "```json" ++ ?r) with (96%N :: js "``json" ++ r).
    cbn [remove_all_from]. change (starts_with _ _) with true. cbv iota.
    change (Nat.pred (List.length (js "```json"))) with (List.length (js "``json")).
    rewrite (remove_all_from_skip (js "```json") (js "``json")).
    replace (nl ++ (js "{" ++ members ++ js "}") ++ nl ++ js "```")
      with ((nl ++ (js "{" ++ members ++ js "}") ++ nl) ++ js "```")
      by (rewrite <- !app_assoc; reflexivity).
    change (js "```json") with (96%N :: js "``json").
    rewrite (remove_all_from_clean _ _ _ Hclean). reflexivity. }
  rewrite H1.
  change (remove_all (js "```") ?s) with (remove_all_from (96%N :: js "``") s 0).
  rewrite (remove_all_from_clean _ _ _ Hclean).
  change (remove_all_from _ (js "```") 0) with (@nil codeunit). rewrite app_nil_r.
  change (js "{" ++ members ++ js "}") with (123%N :: members ++ [125%N]).
  now apply trim_between.
Qed.

(** C2.  For the planner reply of the specification, the plan between
    [```json] and [```]: the fences are stripped, what is left parses, and
    the parsed plan is the object with [taskA] = "x" and [taskB] = "y",
    which the orchestrator accepts. *)
Theorem fenced_plan_is_parsed (w : World) :
  cleanJson fenced_reply = plan_text /\
  JSON_parse plan_text = Some plan_xy /\
  parse_plan (JStr fenced_reply) w = (inr plan_xy, w) /\
  plan_incomplete plan_xy = false.
Proof.
  assert (Hc : cleanJson fenced_reply = plan_text)
    by (apply (cleanJson_fenced_object plan_members); reflexivity).
  assert (Hp : JSON_parse plan_text = Some plan_xy) by (vm_compute; reflexivity).
  split; [exact Hc|]. split; [exact Hp|]. split.
  - unfold parse_plan, parsed_plan. now rewrite Hc, Hp.
  - vm_compute; reflexivity.
Qed.

(* ------------------------------------------------------------------ *)
(** *** The guard on the text *)

(** C10.  On a falsy text [runAgentMode] returns at once and leaves the
    world as it was: no message, no disabled control, no bubble, no call. *)
Theorem falsy_text_is_ignored (userText : JSValue) (w : World) :
  truthy userText = false ->
  runAgentMode env userText w = (inr tt, w).
Proof.
  intros H. unfold runAgentMode. now rewrite H.
Qed.

(* ------------------------------------------------------------------ *)
(** *** The request of [fetchAPIBackground] *)

Lemma request_of_inr (stored : option JSString) (a : CallArgs) (req : Request) :
  request_of stored a = inr req ->
  exists apiKey model text img prefix hist,
    stored = Some apiKey /\ apiKey <> [] /\
    ToString (js_or (arg_modelOverride a) (JStr default_model)) = Some model /\
    text_of (arg_newUserText a) = Some text /\
    image_parts (arg_imageBase64 a) = inr img /\
    personaPrefix (arg_systemPrompt a) = inr prefix /\
    formattedHistory (arg_history a) = inr hist /\
    req = {| url := endpoint model apiKey;
             method := js "POST";
             headers := [(js "Content-Type", js "application/json")];
             contents := prefix ++ hist ++
                         [{| turn_role := js "user"; parts := TextPart text :: img |}];
             safetySettings := harm_categories;
             temperature := js "0.9";
             maxOutputTokens := 8192 |}.
Proof.
  unfold request_of, build_request, text_of, to_string, LS_get.
  destruct stored as [[|c k]|]; try discriminate. cbn [truthy negb].
  destruct (ToString (js_or (arg_modelOverride a) _)) as [model|]; [|discriminate].
  cbn [rbind].
  destruct (ToString (js_or (arg_newUserText a) _)) as [text|]; [|discriminate].
  cbn [rbind].
  destruct (image_parts _) as [|img]; [discriminate|]. cbn [rbind].
  destruct (personaPrefix _) as [|prefix]; [discriminate|]. cbn [rbind].
  destruct (formattedHistory _) as [|hist]; [discriminate|]. cbn [rbind].
  intros H. injection H as <-.
  exists (c :: k), model, text, img, prefix, hist.
  repeat (split; [first [reflexivity | discriminate]|]).
  unfold endpoint. now rewrite <- !app_assoc.
Qed.

(** X1.  A request is built only when a non-empty key is stored.  It is a
    POST of JSON to the [generateContent] address of the model override, or
    of [gemma-3-27b-it] when the override is falsy, with the key in the
    query; it names the four harm categories, each blocked from medium up,
    temperature 0.9 and 8192 output tokens. *)
Theorem request_endpoint (stored : option JSString) (a : CallArgs) (req : Request) :
  request_of stored a = inr req ->
  exists apiKey model,
    stored = Some apiKey /\ apiKey <> [] /\
    ToString (js_or (arg_modelOverride a) (JStr default_model)) = Some model /\
    (truthy (arg_modelOverride a) = false -> model = default_model) /\
    url req = endpoint model apiKey /\
    method req = js "POST" /\
    headers req = [(js "Content-Type", js "application/json")] /\
    map fst (safetySettings req) =
      [js "HARM_CATEGORY_HARASSMENT"; js "HARM_CATEGORY_HATE_SPEECH";
       js "HARM_CATEGORY_SEXUALLY_EXPLICIT"; js "HARM_CATEGORY_DANGEROUS_CONTENT"] /\
    Forall (fun c => snd c = js "BLOCK_MEDIUM_AND_ABOVE") (safetySettings req) /\
    temperature req = js "0.9" /\
    maxOutputTokens req = 8192%N.
Proof.
  intros H.
  destruct (request_of_inr _ _ H)
    as (apiKey & model & text & img & prefix & hist & Hs & Hk & Hm & _ & _ & _ & _ & ->).
  exists apiKey, model.
  split; [exact Hs|]. split; [exact Hk|]. split; [exact Hm|].
  split.
  { intros Hf. unfold js_or in Hm. rewrite Hf in Hm. now injection Hm as <-. }
  cbn [url method headers safetySettings temperature maxOutputTokens].
  repeat (split; [reflexivity|]).
  split; [|split; reflexivity].
  repeat constructor.
Qed.

Lemma formattedHistory_turns (h : list HistTurn) (ts : list Turn) :
  formattedHistory h = inr ts ->
  Forall2 (fun m t =>
             turn_role t = (if is_assistant (h_role m) then js "model" else js "user") /\
             exists text, text_of (h_content m) = Some text /\ parts t = [TextPart text])
          h ts.
Proof.
  revert ts; induction h as [|m h IH]; cbn [formattedHistory]; intros ts H.
  - injection H as <-. constructor.
  - unfold to_string in H.
    destruct (ToString (js_or (h_content m) (JStr []))) as [text|] eqn:Et; [|discriminate].
    cbn [rbind] in H.
    destruct (formattedHistory h) as [|rest]; [discriminate|]. cbn [rbind] in H.
    injection H as <-. constructor; [|now apply IH].
    split; [reflexivity|]. exists text. split; [exact Et|reflexivity].
Qed.

Lemma formattedHistory_fails (h : list HistTurn) (e : Exn) :
  formattedHistory h = inl e ->
  e = TypeErrorOf CannotConvert /\
  Exists (fun m => text_of (h_content m) = None) h.
Proof.
  induction h as [|m h IH]; cbn [formattedHistory]; intros H; [discriminate|].
  unfold to_string in H.
  destruct (ToString (js_or (h_content m) (JStr []))) as [text|] eqn:Et.
  - cbn [rbind] in H.
    destruct (formattedHistory h) as [e'|rest]; cbn [rbind] in H; [|discriminate].
    injection H as <-. destruct (IH eq_refl) as [-> Hex]. split; [reflexivity|].
    now apply Exists_cons_tl.
  - cbn [rbind] in H. injection H as <-. split; [reflexivity|].
    now apply Exists_cons_hd.
Qed.

(** X2.  The history is cast turn by turn, in order: a turn whose role is
    the string [assistant] becomes a [model] turn and any other a [user]
    turn, each with one text part, [String(content || '')].  The cast fails,
    with a TypeError, only when some content cannot be converted. *)
Theorem history_is_cast_in_order (h : list HistTurn) :
  match formattedHistory h with
  | inr ts =>
      Forall2 (fun m t =>
                 turn_role t = (if is_assistant (h_role m) then js "model" else js "user") /\
                 exists text, text_of (h_content m) = Some text /\ parts t = [TextPart text])
              h ts
  | inl e =>
      e = TypeErrorOf CannotConvert /\
      Exists (fun m => text_of (h_content m) = None) h
  end.
Proof.
  destruct (formattedHistory h) as [e|ts] eqn:E.
  - now apply formattedHistory_fails.
  - now apply formattedHistory_turns.
Qed.

Lemma personaPrefix_inr (p : JSValue) (ts : list Turn) :
  personaPrefix p = inr ts ->
  if truthy p then
    exists sp, ToString p = Some sp /\
      ts = [ {| turn_role := js "user";
                parts := [TextPart (js "[System Instructions] " ++ sp)] |};
             {| turn_role := js "model"; parts := [TextPart (js "Understood.")] |} ]
  else ts = [].
Proof.
  unfold personaPrefix, to_string. destruct (truthy p).
  - destruct (ToString p) as [sp|]; cbn [rbind]; intros H; [|discriminate].
    injection H as <-. now exists sp.
  - intros H. now injection H as <-.
Qed.

Lemma image_parts_inr (v : JSValue) (img : list Part) :
  image_parts v = inr img ->
  if truthy v then exists mimeType data, img = [InlineData mimeType data] else img = [].
Proof.
  unfold image_parts. destruct (truthy v).
  - destruct v; try discriminate. destruct (match_data_url s) as [[m d]|]; intros H;
      injection H as <-; eauto.
  - intros H. now injection H as <-.
Qed.

(** X3.  The conversation of a request ends with a [user] turn that opens
    with the text [String(newUserText || '')], followed by one inline image
    when an image is given and by nothing otherwise.  Every turn before it
    is a [user] or [model] turn with one text part: two for a truthy system
    prompt, then one for each turn of the history. *)
Theorem request_contents_shape (stored : option JSString) (a : CallArgs) (req : Request) :
  request_of stored a = inr req ->
  exists earlier text img,
    contents req =
      earlier ++ [{| turn_role := js "user"; parts := TextPart text :: img |}] /\
    text_of (arg_newUserText a) = Some text /\
    (truthy (arg_newUserText a) = false -> text = []) /\
    (if truthy (arg_imageBase64 a)
     then exists mimeType data, img = [InlineData mimeType data]
     else img = []) /\
    List.length earlier =
      ((if truthy (arg_systemPrompt a) then 2 else 0) + List.length (arg_history a))%nat /\
    Forall (fun t => (turn_role t = js "user" \/ turn_role t = js "model") /\
                     exists s, parts t = [TextPart s]) earlier.
Proof.
  intros H.
  destruct (request_of_inr _ _ H)
    as (apiKey & model & text & img & prefix & hist & _ & _ & _ & Ht & Hi & Hp & Hh & ->).
  exists (prefix ++ hist), text, img. cbn [contents].
  split; [now rewrite <- app_assoc|]. split; [exact Ht|].
  split.
  { intros Hf. unfold text_of, js_or in Ht. rewrite Hf in Ht. now injection Ht as <-. }
  split; [now apply image_parts_inr|].
  apply personaPrefix_inr in Hp. apply formattedHistory_turns in Hh.
  split.
  - rewrite length_app, <- (Forall2_length Hh).
    destruct (truthy (arg_systemPrompt a)); [destruct Hp as [sp [_ ->]]|subst prefix];
      reflexivity.
  - apply Forall_app. split.
    + destruct (truthy (arg_systemPrompt a)); [destruct Hp as [sp [_ ->]]|subst prefix];
        [|constructor].
      constructor; [split; [now left|eexists; reflexivity]|].
      constructor; [split; [now right|eexists; reflexivity]|constructor].
    + clear - Hh. induction Hh as [|m t h ts [Hr [s [_ Hs]]] _ IH]; constructor; [|exact IH].
      split; [|eauto]. rewrite Hr. destruct (is_assistant (h_role m)); auto.
Qed.

(** X4.  A truthy system prompt opens the conversation with two turns, the
    prompt after the tag [[System Instructions]] as a [user] turn and
    [Understood.] as the [model]'s; with a falsy prompt the conversation is
    the history and the final turn alone. *)
Theorem system_prompt_opens_conversation
        (stored : option JSString) (a : CallArgs) (req : Request) :
  request_of stored a = inr req ->
  exists hist final,
    formattedHistory (arg_history a) = inr hist /\
    if truthy (arg_systemPrompt a) then
      exists sp, ToString (arg_systemPrompt a) = Some sp /\
        contents req =
          {| turn_role := js "user";
             parts := [TextPart (js "[System Instructions] " ++ sp)] |}
          :: {| turn_role := js "model"; parts := [TextPart (js "Understood.")] |}
          :: hist ++ [final]
    else contents req = hist ++ [final].
Proof.
  intros H.
  destruct (request_of_inr _ _ H)
    as (apiKey & model & text & img & prefix & hist & _ & _ & _ & _ & _ & Hp & Hh & ->).
  exists hist. eexists. split; [exact Hh|]. cbn [contents].
  apply personaPrefix_inr in Hp.
  destruct (truthy (arg_systemPrompt a)).
  - destruct Hp as [sp [Hsp ->]]. exists sp. split; [exact Hsp|reflexivity].
  - subst prefix. reflexivity.
Qed.

(* ------------------------------------------------------------------ *)
(** *** The image and the reply *)

Lemma strip_prefix_app (p s : JSString) : strip_prefix p (p ++ s) = Some s.
Proof.
  induction p as [|c p IH]; cbn [app strip_prefix]; [reflexivity|].
  now rewrite N.eqb_refl.
Qed.

Lemma strip_prefix_none (p s : JSString) :
  starts_with p s = false -> strip_prefix p s = None.
Proof.
  revert s; induction p as [|c p IH]; intros [|x s]; cbn [starts_with strip_prefix];
    try discriminate; [reflexivity|].
  destruct (N.eqb c x); cbn [andb]; [apply IH|reflexivity].
Qed.

Lemma span_until_semicolon_app (sub r : JSString) :
  forallb (fun c => negb (c =? 59)%N) sub = true ->
  span_until_semicolon (sub ++ 59%N :: r) = (sub, 59%N :: r).
Proof.
  induction sub as [|c sub IH]; cbn [app span_until_semicolon forallb]; intros H.
  - reflexivity.
  - apply andb_true_iff in H as [Hc Hs]. apply negb_true_iff in Hc.
    rewrite Hc, (IH Hs). reflexivity.
Qed.

(** X5.  An image given as a data URL, [data:image/] with a subtype free of
    semicolons, then [;base64,] and a payload, is sent with the MIME type
    [image/] and the subtype, and with the payload up to its first line
    terminator as data. *)
Theorem data_url_is_split (sub rest : JSString) :
  sub <> [] ->
  forallb (fun c => negb (c =? 59)%N) sub = true ->
  take_line rest <> [] ->
  image_parts (JStr (js "data:image/" ++ sub ++ js ";base64," ++ rest)) =
    inr [InlineData (js "image/" ++ sub) (take_line rest)].
Proof.
  intros Hsub Hsemi Hline. unfold image_parts, match_data_url.
  assert (Ht : truthy (JStr (js "data:image/" ++ sub ++ js ";base64," ++ rest)) = true)
    by reflexivity.
  rewrite Ht, strip_prefix_app.
  change (js ";base64," ++ rest) with (59%N :: js "base64," ++ rest).
  rewrite (@span_until_semicolon_app sub _ Hsemi).
  destruct sub as [|c sub]; [contradiction|].
  change (59%N :: js "base64," ++ rest) with (js ";base64," ++ rest).
  rewrite strip_prefix_app.
  destruct (take_line rest) as [|d ds]; [contradiction|reflexivity].
Qed.

(** X6.  A non-empty image string that does not start with [data:image/] is
    sent whole, as [image/jpeg]. *)
Theorem raw_image_is_jpeg (s : JSString) :
  s <> [] ->
  starts_with (js "data:image/") s = false ->
  image_parts (JStr s) = inr [InlineData (js "image/jpeg") s].
Proof.
  intros Hs Hp. unfold image_parts, match_data_url.
  rewrite (@strip_prefix_none _ _ Hp).
  destruct s; [contradiction|reflexivity].
Qed.

(** X7.  With an image argument that is truthy and not a string, the call
    throws before anything is sent: the error is the missing key or a
    TypeError, and the call is the only event. *)
Theorem non_string_image_throws (site : Site) (a : CallArgs) (w : World) :
  truthy (arg_imageBase64 a) = true ->
  (forall s, arg_imageBase64 a <> JStr s) ->
  exists e,
    fetchAPIBackground env site a w = (inl e, replay [EvCall site a] w) /\
    (e = MissingCredential \/ exists f, e = TypeErrorOf f) /\
    trace (snd (fetchAPIBackground env site a w)) = trace w ++ [EvCall site a].
Proof.
  intros Ht Hs. rewrite fetchAPIBackground_eq.
  assert (E : exists e, request_of (ls_apikey w) a = inl e /\
                        (e = MissingCredential \/ exists f, e = TypeErrorOf f)).
  { unfold request_of. destruct (negb _); [eauto|].
    unfold build_request, to_string.
    destruct (ToString (js_or (arg_modelOverride a) _)); cbn [rbind]; [|eauto 6].
    destruct (ToString (js_or (arg_newUserText a) _)); cbn [rbind]; [|eauto 6].
    unfold image_parts. rewrite Ht.
    destruct (arg_imageBase64 a) eqn:Ei; cbn [rbind]; eauto 6.
    exfalso. now apply (Hs s). }
  destruct E as [e [-> He]]. exists e. cbn [snd].
  split; [reflexivity|]. split; [exact He|]. apply trace_replay.
Qed.

Lemma opt_field_get_field (v : JSValue) (k : JSString) :
  opt_field v k = get_field v k.
Proof. destruct v; reflexivity. Qed.

(** X8.  From an ok response the call returns the text of the first part of
    the first candidate, whatever other candidates and parts follow; a falsy
    text is returned as the empty string. *)
Theorem first_candidate_is_returned
        (res : Response) (data c p : JSValue) (cs ps : list JSValue) :
  ok res = true ->
  body res = BodyValue data ->
  get_field data (js "candidates") = JArr (c :: cs) ->
  get_field (get_field c (js "content")) (js "parts") = JArr (p :: ps) ->
  fetch_settle (NetResponse res) = inr (js_or (get_field p (js "text")) (JStr [])).
Proof.
  intros Hok Hb Hc Hp. unfold fetch_settle, first_text.
  rewrite Hok, Hb. cbn [negb].
  rewrite !opt_field_get_field, Hc. cbn [opt_index0].
  rewrite Hp. reflexivity.
Qed.

(** X9.  From an ok response whose body has no candidate (the member is
    absent, falsy or an empty array) the call returns the empty string. *)
Theorem no_candidate_is_empty_text (res : Response) (data : JSValue) :
  ok res = true ->
  body res = BodyValue data ->
  truthy (get_field data (js "candidates")) = false \/
  get_field data (js "candidates") = JArr [] ->
  fetch_settle (NetResponse res) = inr (JStr []).
Proof.
  intros Hok Hb Hc. unfold fetch_settle, first_text.
  rewrite Hok, Hb. cbn [negb].
  rewrite (opt_field_get_field data).
  assert (E : opt_index0 (get_field data (js "candidates")) = JUndefined).
  { destruct Hc as [Hc | ->]; [|reflexivity].
    destruct (get_field data (js "candidates")) as [| |b|n|[|x s]|l|ms];
      try reflexivity; discriminate. }
  rewrite E. reflexivity.
Qed.

(** X10.  What the call returns is never [undefined], [null] or another
    falsy value but the empty string. *)
Theorem result_is_text_or_truthy (o : NetOutcome) (v : JSValue) :
  fetch_settle o = inr v -> v = JStr [] \/ truthy v = true.
Proof.
  unfold fetch_settle. destruct o as [m|res]; [discriminate|].
  destruct (negb (ok res)).
  - destruct (truthy _); [destruct (ToString _)|]; discriminate.
  - destruct (body res) as [data|m]; [|discriminate].
    unfold js_or. destruct (truthy (first_text data)) eqn:E; intros H;
      injection H as <-; auto.
Qed.

(* ------------------------------------------------------------------ *)
(** *** The terminal helpers on their own *)

Lemma update_first_absent (id text : JSString) (isError : bool) (d : list TermBubble) :
  getElementById id d = None -> update_first id text isError d = d.
Proof.
  induction d as [|b d IH]; cbn [getElementById update_first]; [reflexivity|].
  destruct (str_eqb (tb_id b) id); [discriminate|]. intros H. now rewrite IH.
Qed.

Lemma remove_first_absent (id : JSString) (d : list TermBubble) :
  getElementById id d = None -> remove_first id d = d.
Proof.
  induction d as [|b d IH]; cbn [getElementById remove_first]; [reflexivity|].
  destruct (str_eqb (tb_id b) id); [discriminate|]. intros H. now rewrite IH.
Qed.

(** X11.  [updateTerminal] and [removeTerminal] with an id that no element
    of the document carries leave the document as it is. *)
Theorem unknown_id_is_ignored (id text : JSString) (isError : bool) (w : World) :
  getElementById id (document w) = None ->
  document (snd (updateTerminal id text isError w)) = document w /\
  document (snd (removeTerminal id w)) = document w.
Proof.
  intros H. split.
  - now apply update_first_absent.
  - now apply remove_first_absent.
Qed.

Lemma update_first_at (id text : JSString) (isError : bool)
      (pre post : list TermBubble) (b : TermBubble) :
  getElementById id pre = None -> tb_id b = id ->
  update_first id text isError (pre ++ b :: post) =
  pre ++ {| tb_id := id; tb_text := text; tb_danger := isError || tb_danger b |} :: post.
Proof.
  intros Hp Hb. induction pre as [|x pre IH]; cbn [app update_first getElementById] in *.
  - now rewrite Hb, str_eqb_refl.
  - destruct (str_eqb (tb_id x) id); [discriminate|]. now rewrite IH.
Qed.

Lemma remove_first_at (id : JSString) (pre post : list TermBubble) (b : TermBubble) :
  getElementById id pre = None -> tb_id b = id ->
  remove_first id (pre ++ b :: post) = pre ++ post.
Proof.
  intros Hp Hb. induction pre as [|x pre IH]; cbn [app remove_first getElementById] in *.
  - now rewrite Hb, str_eqb_refl.
  - destruct (str_eqb (tb_id x) id); [discriminate|]. now rewrite IH.
Qed.

(** X12.  Of several elements with the same id only the first in document
    order is reached: [updateTerminal] replaces its text, and sets the error
    colour when asked to; [removeTerminal] removes it; the elements before
    and after it stay as they are. *)
Theorem first_match_only (id text : JSString) (isError : bool) (w : World)
        (pre post : list TermBubble) (b : TermBubble) :
  document w = pre ++ b :: post ->
  getElementById id pre = None ->
  tb_id b = id ->
  document (snd (updateTerminal id text isError w)) =
    pre ++ {| tb_id := id; tb_text := text; tb_danger := isError || tb_danger b |} :: post /\
  document (snd (removeTerminal id w)) = pre ++ post.
Proof.
  intros Hd Hp Hb.
  change (document (snd (updateTerminal id text isError w)))
    with (update_first id text isError (document w)).
  change (document (snd (removeTerminal id w))) with (remove_first id (document w)).
  rewrite Hd. split.
  - now apply update_first_at.
  - now apply remove_first_at.
Qed.

Lemma update_first_twice (id t1 t2 : JSString) (e1 e2 : bool) (d : list TermBubble) :
  update_first id t2 e2 (update_first id t1 e1 d) = update_first id t2 (e2 || e1) d.
Proof.
  induction d as [|b d IH]; cbn [update_first]; [reflexivity|].
  destruct (str_eqb (tb_id b) id) eqn:E; cbn [update_first tb_id tb_danger]; rewrite E.
  - now rewrite orb_assoc.
  - now rewrite IH.
Qed.

(** X13.  Two updates of the same id in a row amount to one, with the later
    text and the error colour when either asked for it: the colour, once
    set, is never taken back by an update. *)
Theorem updates_compose (id t1 t2 : JSString) (e1 e2 : bool) (w : World) :
  document (snd (updateTerminal id t2 e2 (snd (updateTerminal id t1 e1 w)))) =
    document (snd (updateTerminal id t2 (e2 || e1) w)) /\
  forall b,
    getElementById id
      (document (snd (updateTerminal id t2 false (snd (updateTerminal id t1 true w)))))
      = Some b ->
    tb_text b = t2 /\ tb_danger b = true.
Proof.
  split.
  - apply update_first_twice.
  - intros b.
    change (document (snd (updateTerminal id t2 false (snd (updateTerminal id t1 true w)))))
      with (update_first id t2 false (update_first id t1 true (document w))).
    rewrite !getElementById_update.
    destruct (getElementById id (document w)); intros H; [|discriminate].
    injection H as <-. split; reflexivity.
Qed.

Lemma update_first_ids (id text : JSString) (isError : bool) (d : list TermBubble) :
  map tb_id (update_first id text isError d) = map tb_id d.
Proof.
  induction d as [|b d IH]; cbn [update_first map]; [reflexivity|].
  destruct (str_eqb (tb_id b) id); cbn [map tb_id]; [reflexivity|now rewrite IH].
Qed.

Lemma getElementById_update_other (id id' text : JSString) (isError : bool)
      (d : list TermBubble) :
  str_eqb id' id = false ->
  getElementById id' (update_first id text isError d) = getElementById id' d.
Proof.
  intros Hne. induction d as [|b d IH]; cbn [update_first getElementById]; [reflexivity|].
  destruct (str_eqb (tb_id b) id) eqn:E; cbn [getElementById tb_id].
  - apply str_eqb_eq in E. rewrite E.
    destruct (str_eqb id id') eqn:E'; [|reflexivity].
    apply str_eqb_eq in E'. subst id'. now rewrite str_eqb_refl in Hne.
  - now rewrite IH.
Qed.

(** X14.  [updateTerminal] adds no element, removes none and changes no id:
    the ids of the document are the same, in the same order, and the element
    any other id designates is untouched. *)
Theorem update_keeps_elements (id text : JSString) (isError : bool) (w : World) :
  map tb_id (document (snd (updateTerminal id text isError w))) = map tb_id (document w) /\
  forall id', str_eqb id' id = false ->
    getElementById id' (document (snd (updateTerminal id text isError w))) =
    getElementById id' (document w).
Proof.
  split.
  - apply update_first_ids.
  - intros id' Hne. now apply getElementById_update_other.
Qed.

(** X15.  When an element of the document already carries the id that
    [createTerminalBubble] returns, the new bubble is appended all the same,
    and updates and removals by that id reach the older element: the new
    bubble stays, with its first text. *)
Theorem stale_bubble_shadows_new (text : JSString) (isError : bool) (w : World)
        (b : TermBubble) :
  getElementById (terminal_id env) (document w) = Some b ->
  let id := terminal_id env in
  let w1 := snd (createTerminalBubble env w) in
  fst (createTerminalBubble env w) = inr id /\
  document w1 = document w ++ [new_bubble id] /\
  document (snd (updateTerminal id text isError w1)) =
    document (snd (updateTerminal id text isError w)) ++ [new_bubble id] /\
  document (snd (removeTerminal id w1)) =
    document (snd (removeTerminal id w)) ++ [new_bubble id].
Proof.
  intros H id w1. subst id w1.
  split; [reflexivity|]. split; [reflexivity|]. split.
  - exact (@update_first_app _ _ _ _ _ _ H).
  - exact (@remove_first_app _ _ _ _ H).
Qed.

(** X16.  In a document where no element carries the id yet, the bubble
    [createTerminalBubble] appends is the one its id designates, with the
    text [> Initializing...] and no error colour; an update shows on it, and
    its removal gives the document back as it was. *)
Theorem created_bubble_round_trip (text : JSString) (isError : bool) (w : World) :
  getElementById (terminal_id env) (document w) = None ->
  let id := terminal_id env in
  let w1 := snd (createTerminalBubble env w) in
  let w2 := snd (updateTerminal id text isError w1) in
  fst (createTerminalBubble env w) = inr id /\
  getElementById id (document w1) =
    Some {| tb_id := id; tb_text := js "> Initializing..."; tb_danger := false |} /\
  getElementById id (document w2) =
    Some {| tb_id := id; tb_text := text; tb_danger := isError |} /\
  document (snd (removeTerminal id w2)) = document w.
Proof.
  intros H id w1 w2. subst id w1 w2.
  split; [reflexivity|].
  change (document (snd (createTerminalBubble env w)))
    with (document w ++ [new_bubble (terminal_id env)]).
  split; [rewrite getElementById_snoc, H by reflexivity; reflexivity|].
  match goal with
  | |- context [document (snd (updateTerminal ?i ?t ?e ?x))] =>
      change (document (snd (updateTerminal i t e x)))
        with (update_first i t e (document w ++ [new_bubble (terminal_id env)]))
  end.
  rewrite update_first_fresh by (assumption || reflexivity).
  cbn [tb_danger new_bubble]. rewrite orb_false_r.
  split.
  - rewrite getElementById_snoc, H by reflexivity. reflexivity.
  - match goal with
    | |- document (snd (removeTerminal ?i ?x)) = _ =>
        change (document (snd (removeTerminal i x))) with (remove_first i (document x))
    end.
    match goal with
    | |- remove_first _ (document (snd (updateTerminal ?i ?t ?e ?x))) = _ =>
        change (document (snd (updateTerminal i t e x)))
          with (update_first i t e (document w ++ [new_bubble (terminal_id env)]))
    end.
    rewrite update_first_fresh by (assumption || reflexivity).
    now rewrite remove_first_fresh by (assumption || reflexivity).
Qed.

Lemma uint_digits_inj (d d' : Decimal.uint) : uint_digits d = uint_digits d' -> d = d'.
Proof.
  revert d'; induction d; intros d'; destruct d'; cbn [uint_digits]; intros H;
    try discriminate; try reflexivity; injection H as H; f_equal; now apply IHd.
Qed.

Lemma uint_digits_head (d : Decimal.uint) (r : JSString) : uint_digits d <> 45%N :: r.
Proof. destruct d; cbn [uint_digits]; discriminate. Qed.

Lemma Z_to_js_inj (a b : Z) : Z_to_js a = Z_to_js b -> a = b.
Proof.
  assert (Hn : forall n m, N_to_js n = N_to_js m -> n = m).
  { intros n m H. now apply DecimalN.Unsigned.to_uint_inj, uint_digits_inj. }
  unfold Z_to_js.
  destruct a as [|p|p], b as [|q|q]; intros H;
    try (apply Hn in H; cbn in H; congruence);
    try (exfalso; now apply (uint_digits_head _ H));
    try (symmetry in H; exfalso; now apply (uint_digits_head _ H)).
  injection H as H. apply Hn in H. congruence.
Qed.

(** X17.  The id of the terminal bubble is [term_] and the clock reading in
    decimal: two runs get the same id exactly when [Date.now()] gives them
    the same reading. *)
Theorem terminal_id_follows_clock (env1 env2 : Env) :
  terminal_id env1 = terminal_id env2 <->
  date_now env1 TickTerminal = date_now env2 TickTerminal.
Proof.
  unfold terminal_id. split; intros H.
  - apply app_inv_head in H. now apply Z_to_js_inj.
  - now rewrite H.
Qed.

(* ------------------------------------------------------------------ *)
(** *** The run as a whole *)

Lemma controls_replay (t : list Event) (w : World) :
  existsb touches_controls t = false ->
  send_disabled (replay t w) = send_disabled w /\
  isStreaming (replay t w) = isStreaming w.
Proof.
  revert w; induction t as [|e t IH]; intros w H; [split; reflexivity|].
  cbn [existsb] in H. apply orb_false_elim in H as [He Ht].
  change (replay (e :: t) w) with (replay t (happen e w)).
  destruct (IH (happen e w) Ht) as [-> ->].
  destruct e; try discriminate; split; reflexivity.
Qed.

Lemma controls_after_setup (userText : JSValue) (w : World) :
  send_disabled (replay (setup_events env userText w) w) = true /\
  isStreaming (replay (setup_events env userText w) w) = true.
Proof. unfold setup_events. destruct (pendingImage w); split; reflexivity. Qed.

Lemma controls_hold (userText : JSValue) (w : World) (t : list Event) :
  existsb touches_controls t = false ->
  forall p q, t = p ++ q ->
    send_disabled (replay (setup_events env userText w ++ p) w) = true /\
    isStreaming (replay (setup_events env userText w ++ p) w) = true.
Proof.
  intros Ht p q ->. rewrite existsb_app in Ht. apply orb_false_elim in Ht as [Hp _].
  rewrite replay_app. destruct (controls_replay _ (replay (setup_events env userText w) w) Hp)
    as [-> ->].
  apply controls_after_setup.
Qed.

(** The events of a run between those of the setup and the last segment. *)
Ltac run_middle :=
  rewrite <- ?app_assoc;
  lazymatch goal with
  | |- context [replay (_ ++ ?l) _] =>
      let c := count_segments l in
      let k := eval cbv in (c - 1)%nat in
      let p := take_segments k l in
      exists p
  end.

(** X18.  From the end of the setup to the [finally] clause nothing writes
    the submit control or the streaming flag: at every point in between the
    control is disabled and the flag is set. *)
Theorem controls_stay_disabled (userText : JSValue) (w : World) :
  truthy userText = true ->
  exists t,
    trace (snd (runAgentMode env userText w)) =
      trace w ++ setup_events env userText w ++ t
              ++ [EvStreaming false; EvSendDisabled false] /\
    existsb touches_controls t = false /\
    forall p q, t = p ++ q ->
      send_disabled (replay (setup_events env userText w ++ p) w) = true /\
      isStreaming (replay (setup_events env userText w ++ p) w) = true.
Proof.
  intros Ht.
  rewrite (runAgentMode_eq userText w Ht); cbv zeta.
  destruct (pipeline _ _ _ _ _) as [r w1] eqn:Hp.
  pipeline_cases Hp; cbn [snd].
  all: run_middle.
  all: split; [rewrite trace_replay, <- ?app_assoc; reflexivity|].
  all: assert (Hq : forall l, existsb touches_controls l = false ->
                 existsb touches_controls l = false /\
                 forall p q, l = p ++ q ->
                   send_disabled (replay (setup_events env userText w ++ p) w) = true /\
                   isStreaming (replay (setup_events env userText w ++ p) w) = true)
         by (intros l Hl; split; [exact Hl|now apply controls_hold]).
  all: apply Hq; reflexivity.
Qed.

Lemma pendingImage_replay_none (t : list Event) (w : World) :
  pendingImage w = None -> pendingImage (replay t w) = None.
Proof.
  revert w; induction t as [|e t IH]; intros w H; [exact H|].
  change (replay (e :: t) w) with (replay t (happen e w)).
  apply IH. destruct e; try exact H; reflexivity.
Qed.

Lemma pendingImage_after_setup (userText : JSValue) (w : World) :
  pendingImage (replay (setup_events env userText w) w) = None.
Proof.
  unfold setup_events. destruct (pendingImage w) eqn:E; [reflexivity|exact E].
Qed.

(** X19.  A pending image is used up by the run: its base64 text and its
    data URL go into the user turn, which is the first turn appended, the
    planner call is given the base64 text (or [null] when it is falsy or no
    image is pending), and no image is pending once the run is over. *)
Theorem pending_image_is_consumed (userText : JSValue) (w : World) :
  truthy userText = true ->
  let w' := snd (runAgentMode env userText w) in
  let userMsg := user_message env userText (pendingImage w) in
  pendingImage w' = None /\
  (imageBase64 userMsg, imageDataUrl userMsg) =
    match pendingImage w with
    | Some p => (base64 p, dataUrl p)
    | None => (JUndefined, JUndefined)
    end /\
  exists t,
    trace w' = trace w ++ t /\
    hd_error (appended t) = Some userMsg /\
    forall a, In (Planner, a) (calls t) ->
      arg_imageBase64 a =
        match pendingImage w with
        | Some p => js_or (base64 p) JNull
        | None => JNull
        end.
Proof.
  intros Ht w' userMsg. subst w' userMsg.
  split_run userText w Ht t.
  all: split;
       [ subst t; rewrite <- ?app_assoc, replay_app;
         apply pendingImage_replay_none, pendingImage_after_setup | ].
  all: split; [destruct (pendingImage w); reflexivity|].
  all: exists t; split; [reflexivity|]; subst t.
  all: rewrite ?appended_app, ?calls_app, appended_setup, calls_setup.
  all: split; [reflexivity|].
  all: cbn [calls flat_map app]; intros a Ha; in_cases; try discriminate.
  all: destruct (pendingImage w); reflexivity.
Qed.

(** X20.  The planner call is given the user's text, the orchestrator
    prompt and, as history, the turns the chat held before the run: the new
    user turn is not among them.  The synthesizer call is given the same
    history, and the synthesizer prompt. *)
Theorem planner_and_synthesizer_context (userText : JSValue) (w : World) :
  exists t,
    trace (snd (runAgentMode env userText w)) = trace w ++ t /\
    (forall a, In (Planner, a) (calls t) ->
       arg_history a = history_before w /\
       arg_newUserText a = userText /\
       arg_systemPrompt a = JStr orchestratorPrompt) /\
    (forall a, In (Synthesizer, a) (calls t) ->
       arg_history a = history_before w /\
       arg_systemPrompt a = JStr synthesizerPrompt) /\
    List.length (history_before w) = List.length (chat_messages w).
Proof.
  assert (Hl : List.length (history_before w) = List.length (chat_messages w))
    by apply length_map.
  destruct (truthy userText) eqn:Ht.
  2:{ exists []. unfold runAgentMode. rewrite Ht. simpl. rewrite app_nil_r.
      repeat split; try exact Hl; intros; contradiction. }
  split_run userText w Ht t.
  all: exists t; split; [reflexivity|]; subst t.
  all: rewrite ?calls_app, calls_setup; cbn [calls flat_map app].
  all: split; [|split; [|exact Hl]].
  all: intros a Ha; in_cases; try discriminate.
  all: repeat split; reflexivity.
Qed.

(** X21.  Worker A is given [taskA] of the plan parsed from the planner's
    reply, worker B its [taskB], both with the worker prompt; no worker is
    called unless that plan was accepted. *)
Theorem workers_get_the_plan (userText : JSValue) (w : World) :
  exists t,
    trace (snd (runAgentMode env userText w)) = trace w ++ t /\
    forall s a, In (s, a) (calls t) -> s = WorkerA \/ s = WorkerB ->
      exists reply tasks,
        fetch_settle (network env Planner) = inr reply /\
        parsed_plan reply = Some tasks /\
        plan_incomplete tasks = false /\
        arg_newUserText a =
          get_field tasks (match s with WorkerA => js "taskA" | _ => js "taskB" end) /\
        arg_systemPrompt a = JStr workerSystemPrompt.
Proof.
  destruct (truthy userText) eqn:Ht.
  2:{ exists []. unfold runAgentMode. rewrite Ht. simpl. rewrite app_nil_r.
      split; [reflexivity|]. intros; contradiction. }
  split_run userText w Ht t.
  all: exists t; split; [reflexivity|]; subst t.
  all: rewrite ?calls_app, calls_setup; cbn [calls flat_map app].
  all: intros s a Ha Hs; in_cases; try discriminate;
       try (destruct Hs; discriminate).
  all: do 2 eexists; repeat split; eassumption || reflexivity.
Qed.

Lemma request_of_default_model (stored : option JSString) (a : CallArgs) (req : Request) :
  arg_modelOverride a = JStr default_model ->
  request_of stored a = inr req ->
  exists apiKey, stored = Some apiKey /\ apiKey <> [] /\
    url req = endpoint default_model apiKey.
Proof.
  intros Hm H.
  destruct (request_of_inr _ _ H)
    as (apiKey & model & text & img & prefix & hist & Hs & Hk & Hmodel & _ & _ & _ & _ & ->).
  rewrite Hm in Hmodel. injection Hmodel as <-. eauto.
Qed.

(** X22.  Every request of a run goes to the [generateContent] address of
    [gemma-3-27b-it], with the stored key, which is not empty, in the
    query. *)
Theorem requests_use_default_model (userText : JSValue) (w : World) :
  exists t,
    trace (snd (runAgentMode env userText w)) = trace w ++ t /\
    forall s req, In (s, req) (requests t) ->
      exists apiKey, ls_apikey w = Some apiKey /\ apiKey <> [] /\
        url req = endpoint default_model apiKey.
Proof.
  destruct (truthy userText) eqn:Ht.
  2:{ exists []. unfold runAgentMode. rewrite Ht. simpl. rewrite app_nil_r.
      split; [reflexivity|]. intros; contradiction. }
  split_run userText w Ht t.
  all: exists t; split; [reflexivity|]; subst t.
  all: rewrite ?requests_app, requests_setup; cbn [requests flat_map app].
  all: intros s req Hin; in_cases.
  all: match goal with
       | H : request_of _ _ = inr ?r |- context [url ?r] =>
           refine (@request_of_default_model _ _ _ _ H); reflexivity
       end.
Qed.

(** X23.  With no stored key, or an empty one, the whole run is: the setup,
    the planner call, which sends nothing, the error [No API key saved.] on
    the terminal, in a toast and on the console, and the cleanup. *)
Theorem run_without_key (userText : JSValue) (w : World) :
  truthy userText = true ->
  ls_apikey w = None \/ ls_apikey w = Some [] ->
  let userMsg := user_message env userText (pendingImage w) in
  let id := terminal_id env in
  trace (snd (runAgentMode env userText w)) =
    trace w ++ setup_events env userText w ++
    [EvUpdateTerminal id (js "> Orchestrator analyzing request...") false;
     EvCall Planner (planner_args (history_before w) userText userMsg);
     EvUpdateTerminal id (js "> Error: No API key saved.") true;
     EvToast (js "Agent Mode Error: No API key saved.") (js "error");
     EvConsoleError (js "No API key saved.")] ++
    [EvStreaming false; EvSendDisabled false].
Proof.
  intros Ht Hkey userMsg id. subst userMsg id.
  assert (E : forall a, request_of (ls_apikey w) a = inl MissingCredential)
    by (intros a; destruct Hkey as [-> | ->]; reflexivity).
  rewrite (runAgentMode_eq userText w Ht); cbv zeta.
  unfold pipeline, bind. rewrite planning_eq. cbv zeta.
  rewrite ls_apikey_replay, E, history_after_setup. cbn [snd].
  rewrite <- ?replay_app, trace_replay, <- ?app_assoc. reflexivity.
Qed.

Lemma terminal_lines_app (t1 t2 : list Event) :
  terminal_lines (t1 ++ t2) = terminal_lines t1 ++ terminal_lines t2.
Proof. apply flat_map_app. Qed.

Lemma terminal_targets_app (t1 t2 : list Event) :
  terminal_targets (t1 ++ t2) = terminal_targets t1 ++ terminal_targets t2.
Proof. apply flat_map_app. Qed.

Lemma terminal_lines_setup (userText : JSValue) (w : World) :
  terminal_lines (setup_events env userText w) =
  [(js "> Initializing S.I.L.K. Agent Mode...", false)].
Proof. unfold setup_events. destruct (pendingImage w); reflexivity. Qed.

Lemma terminal_targets_setup (userText : JSValue) (w : World) :
  terminal_targets (setup_events env userText w) = [terminal_id env; terminal_id env].
Proof. unfold setup_events. destruct (pendingImage w); reflexivity. Qed.

(** The lines of a list that are not flagged as errors, counted from its
    head. *)
Ltac count_progress l :=
  lazymatch l with
  | (_, false) :: ?r => let n := count_progress r in constr:(S n)
  | _ => constr:(O)
  end.

(** X24.  The lines written on the terminal are the progress lines in their
    fixed order, at least the first two and none flagged as an error,
    followed by one error line, flagged, exactly when the pipeline threw;
    every terminal event of the run names the id of the bubble the run
    created. *)
Theorem terminal_lines_in_order (userText : JSValue) (w : World) :
  truthy userText = true ->
  exists t k,
    trace (snd (runAgentMode env userText w)) = trace w ++ t /\
    (2 <= k <= 4)%nat /\
    terminal_lines t =
      map (fun l => (l, false)) (firstn k progress_lines) ++
      match fst (pipeline env userText (user_message env userText (pendingImage w))
                   (terminal_id env) (snd (setup env userText w))) with
      | inl err => [(js "> Error: " ++ exn_message err, true)]
      | inr _ => []
      end /\
    Forall (fun id => id = terminal_id env) (terminal_targets t).
Proof.
  intros Ht. rewrite setup_eq. cbn [snd].
  rewrite (runAgentMode_eq userText w Ht); cbv zeta.
  destruct (pipeline _ _ _ _ _) as [r w1] eqn:Hp.
  pipeline_cases Hp; cbn [fst snd]; rewrite trace_replay.
  all: match goal with
       | |- exists t k, trace _ ++ ?l = _ /\ _ => exists l
       end.
  all: rewrite ?terminal_lines_app, ?terminal_targets_app,
         ?terminal_lines_setup, ?terminal_targets_setup.
  all: cbn [terminal_lines terminal_targets flat_map app].
  all: match goal with
       | |- exists k, _ /\ _ /\ ?lines = _ /\ _ =>
           let n := count_progress lines in exists n
       end.
  all: split; [reflexivity|]; split; [lia|].
  all: split; [cbn [map firstn progress_lines app]; reflexivity|].
  all: repeat constructor.
Qed.

(** X25.  The call of [runAgentMode] never throws: whatever the pipeline
    throws is caught and reported, and the run ends normally. *)
Theorem run_never_rejects (userText : JSValue) (w : World) :
  fst (runAgentMode env userText w) = inr tt.
Proof.
  destruct (truthy userText) eqn:Ht.
  - rewrite (runAgentMode_eq userText w Ht); cbv zeta.
    now destruct (pipeline _ _ _ _ _).
  - unfold runAgentMode. now rewrite Ht.
Qed.

(* ------------------------------------------------------------------ *)
(** *** The check and the cleaning of the plan *)

(** X26.  A parsed plan passes the check exactly when it is an object whose
    members [taskA] and [taskB] are both truthy; what else the object holds,
    and whether the two tasks are strings, plays no part.  Any other value,
    [null] included, is turned down without a TypeError. *)
Theorem plan_is_accepted_iff (tasks : JSValue) :
  plan_incomplete tasks = false <->
  exists ms a b,
    tasks = JObj ms /\
    own_property (js "taskA") ms = Some a /\ truthy a = true /\
    own_property (js "taskB") ms = Some b /\ truthy b = true.
Proof.
  unfold plan_incomplete. split.
  - intros H. apply orb_false_elim in H as [H Hb]. apply orb_false_elim in H as [_ Ha].
    apply negb_false_iff in Ha, Hb.
    destruct tasks as [| |x|n|s|l|ms]; try discriminate.
    cbn [get_field] in Ha, Hb.
    destruct (own_property (js "taskA") ms) as [a|] eqn:Ea; [|discriminate].
    destruct (own_property (js "taskB") ms) as [b|] eqn:Eb; [|discriminate].
    exists ms, a, b. repeat split; assumption.
  - intros (ms & a & b & -> & Ha & Hta & Hb & Htb).
    cbn [get_field truthy negb orb]. now rewrite Ha, Hb, Hta, Htb.
Qed.

(* ------------------------------------------------------------------ *)

Lemma starts_with_app_l (p q s : JSString) :
  starts_with (p ++ q) s = true -> starts_with p s = true.
Proof.
  revert s; induction p as [|c p IH]; intros s; [reflexivity|].
  destruct s as [|x s]; cbn [app starts_with]; [discriminate|].
  intros H. apply andb_true_iff in H as [-> H]. now apply IH.
Qed.

Lemma starts_with_app_r (p a b : JSString) :
  starts_with p a = true -> starts_with p (a ++ b) = true.
Proof.
  revert a; induction p as [|c p IH]; intros a; [reflexivity|].
  destruct a as [|x a]; cbn [app starts_with]; [discriminate|].
  intros H. apply andb_true_iff in H as [-> H]. now apply IH.
Qed.

Lemma includes_longer (p q s : JSString) :
  includes s p = false -> includes s (p ++ q) = false.
Proof.
  induction s as [|c s IH]; cbn [includes]; intros H;
    apply orb_false_elim in H as [Hs Hr].
  - destruct (starts_with (p ++ q) []) eqn:E; [|reflexivity].
    apply starts_with_app_l in E. congruence.
  - rewrite (IH Hr), orb_false_r.
    destruct (starts_with (p ++ q) (c :: s)) eqn:E; [|reflexivity].
    apply starts_with_app_l in E. congruence.
Qed.

Lemma includes_app (a b p : JSString) :
  includes (a ++ b) p = false -> includes a p = false /\ includes b p = false.
Proof.
  induction a as [|c a IH]; intros H.
  - split; [|exact H]. cbn [app] in H. cbn [includes]. rewrite orb_false_r.
    destruct (starts_with p []) eqn:E; [|reflexivity].
    apply (starts_with_app_r _ _ b) in E. cbn [app] in E.
    destruct b; cbn [includes] in H; apply orb_false_elim in H as [H _]; congruence.
  - cbn [app includes] in H. apply orb_false_elim in H as [Hs Hr].
    destruct (IH Hr) as [Ha Hb]. split; [|exact Hb].
    cbn [includes]. rewrite Ha, orb_false_r.
    destruct (starts_with p (c :: a)) eqn:E; [|reflexivity].
    apply (starts_with_app_r _ _ b) in E. cbn [app] in E. congruence.
Qed.

Lemma trimStart_suffix (s : JSString) : exists lead, s = lead ++ trimStart s.
Proof.
  induction s as [|c s [lead IH]]; [now exists []|].
  cbn [trimStart]. destruct (is_js_space c).
  - exists (c :: lead). cbn [app]. now rewrite <- IH.
  - now exists [].
Qed.

Lemma trimEnd_prefix (s : JSString) : exists tail, s = trimEnd s ++ tail.
Proof.
  induction s as [|c s [tail IH]]; [now exists []|].
  cbn [trimEnd]. destruct (trimEnd s) as [|x r].
  - destruct (is_js_space c).
    + now exists (c :: s).
    + exists s. reflexivity.
  - exists tail. cbn [app] in *. now rewrite <- IH.
Qed.

Lemma includes_trim (s p : JSString) :
  includes s p = false -> includes (trim s) p = false.
Proof.
  intros H. unfold trim.
  destruct (trimStart_suffix s) as [lead Hl]. rewrite Hl in H.
  apply includes_app in H as [_ H].
  destruct (trimEnd_prefix (trimStart s)) as [tail Ht]. rewrite Ht in H.
  now apply includes_app in H as [H _].
Qed.

Lemma remove_all_from_absent (p s : JSString) :
  includes s p = false -> remove_all_from p s 0 = s.
Proof.
  induction s as [|c s IH]; [reflexivity|].
  cbn [includes remove_all_from]. intros H. apply orb_false_elim in H as [-> H].
  now rewrite IH.
Qed.

Lemma remove_all_absent (p s : JSString) :
  includes s p = false -> remove_all p s = s.
Proof. destruct p; [reflexivity|]. apply remove_all_from_absent. Qed.

(** X27.  A reply that holds no run of three backticks passes through the
    cleaning untouched but for the white space at its two ends. *)
Theorem unfenced_reply_is_trimmed (s : JSString) :
  includes s (js "```") = false -> cleanJson s = trim s.
Proof.
  intros H. unfold cleanJson.
  rewrite (@remove_all_absent (js "```json") s).
  - now rewrite remove_all_absent.
  - change (js "```json") with (js "```" ++ js "json"). now apply includes_longer.
Qed.

Lemma two_backticks_stay_out (r : JSString) :
  starts_with (js "``") r = false ->
  starts_with (js "``") (remove_all_from (js "```") r 0) = false.
Proof.
  change (js "``") with [96%N; 96%N]. change (js "```") with [96%N; 96%N; 96%N].
  destruct r as [|x [|y r]]; intros H; [reflexivity| |].
  - cbn. now rewrite andb_false_r.
  - cbn [starts_with] in H.
    destruct (96 =? x)%N eqn:Ex; [destruct (96 =? y)%N eqn:Ey; [discriminate|]|];
      repeat (cbn [remove_all_from starts_with andb]; rewrite ?Ex, ?Ey);
      reflexivity.
Qed.

Lemma fence_is_removed (n : nat) (s : JSString) :
  (List.length s <= n)%nat ->
  includes (remove_all_from (js "```") s 0) (js "```") = false.
Proof.
  revert s; induction n as [|n IH]; intros s Hn.
  - destruct s; [reflexivity|cbn in Hn; lia].
  - destruct s as [|c r]; [reflexivity|].
    cbn [remove_all_from].
    destruct (starts_with (js "```") (c :: r)) eqn:E.
    + destruct r as [|x [|y r]]; try (cbn in E; rewrite ?andb_false_r in E; discriminate).
      change (Nat.pred (List.length (js "```"))) with 2%nat.
      cbn [remove_all_from]. apply IH. cbn [List.length] in Hn. lia.
    + cbn [includes]. rewrite (IH r) by (cbn [List.length] in Hn; lia).
      rewrite orb_false_r.
      change (js "```") with (96%N :: js "``") in *.
      cbn [starts_with] in *.
      destruct (96 =? c)%N; [|reflexivity]. cbn [andb] in *.
      now apply two_backticks_stay_out.
Qed.

Lemma trimEnd_idempotent (s : JSString) : trimEnd (trimEnd s) = trimEnd s.
Proof.
  induction s as [|c s IH]; [reflexivity|].
  cbn [trimEnd]. destruct (trimEnd s) as [|x r] eqn:E.
  - destruct (is_js_space c) eqn:Ec; [reflexivity|]. cbn [trimEnd]. now rewrite Ec.
  - change (trimEnd (c :: x :: r)) with
      (match trimEnd (x :: r) with
       | [] => if is_js_space c then [] else [c]
       | r' => c :: r'
       end).
    now rewrite IH.
Qed.

Lemma trim_idempotent (s : JSString) : trim (trim s) = trim s.
Proof.
  unfold trim.
  assert (H : trimStart (trimEnd (trimStart s)) = trimEnd (trimStart s)).
  { assert (Hh : trimStart s = [] \/
                 exists c r, trimStart s = c :: r /\ is_js_space c = false).
    { induction s as [|c s IH]; [now left|].
      cbn [trimStart]. destruct (is_js_space c) eqn:Ec; [exact IH|].
      right. now exists c, s. }
    destruct Hh as [-> | (c & r & -> & Hc)]; [reflexivity|].
    pose proof (@trimEnd_after_nonspace [] r c Hc) as E. cbn [app] in E.
    rewrite E. cbn [trimStart]. now rewrite Hc. }
  rewrite H. apply trimEnd_idempotent.
Qed.

(** X28.  Whatever the reply, the text handed to [JSON.parse] holds no run
    of three backticks, and neither starts nor ends with white space:
    trimming it again changes nothing. *)
Theorem cleaned_text_has_no_fence (s : JSString) :
  includes (cleanJson s) (js "```") = false /\
  trim (cleanJson s) = cleanJson s.
Proof.
  unfold cleanJson. split.
  - apply includes_trim.
    change (remove_all (js "```") ?x) with (remove_all_from (js "```") x 0).
    now apply (@fence_is_removed (List.length (remove_all (js "```json") s))).
  - apply trim_idempotent.
Qed.

(** X29.  A reply that is one fenced block, [```json], a payload free of
    backticks and [```], is cleaned to the payload without the white space
    at its two ends. *)
Theorem fenced_reply_is_unwrapped (x : JSString) :
  no_backtick x = true ->
  cleanJson (js "```json" ++ x ++ js "```") = trim x.
Proof.
  intros Hx. unfold cleanJson.
  assert (H1 : remove_all (js "```json") (js "```json" ++ x ++ js "```") = x ++ js "```").
  { change (remove_all (js "```json") ?s) with (remove_all_from (js "```json") s 0).
    change (js "```json" ++ ?r) with (96%N :: js "``json" ++ r).
    cbn [remove_all_from]. change (starts_with _ _) with true. cbv iota.
    change (Nat.pred (List.length (js "```json"))) with (List.length (js "``json")).
    rewrite (remove_all_from_skip (js "```json") (js "``json")).
    change (js "```json") with (96%N :: js "``json").
    rewrite (remove_all_from_clean _ _ _ Hx). reflexivity. }
  rewrite H1.
  change (remove_all (js "```") ?s) with (remove_all_from (96%N :: js "``") s 0).
  rewrite (remove_all_from_clean _ _ _ Hx).
  change (remove_all_from _ (js "```") 0) with (@nil codeunit).
  now rewrite app_nil_r.
Qed.

End Properties.

(* ================================================================== *)
(** ** The sample runs *)

(** C10 at a falsy text, the empty string. *)
Lemma falsy_text_witness :
  truthy (JStr []) = false /\
  runAgentMode env_ok (JStr []) world_with_key = (inr tt, world_with_key).
Proof.
  split; [reflexivity|].
  apply (@falsy_text_is_ignored _ env_ok (JStr []) world_with_key). reflexivity.
Defined.

(** C8 at a world without a stored key. *)
Lemma missing_key_witness :
  ls_apikey world_without_key = None /\
  fst (fetchAPIBackground env_ok Planner (worker_args hello) world_without_key)
    = inl MissingCredential.
Proof.
  split; [reflexivity|].
  destruct (@missing_key_fails_fast _ env_ok Planner (worker_args hello)
              world_without_key (or_introl eq_refl)) as [H _].
  now rewrite H.
Defined.

(** C9 at a response of status 200 around a text: the call returns the
    text. *)
Lemma transport_witness :
  fst (fetchAPIBackground env_ok WorkerA (worker_args hello) world_with_key)
    = inr (JStr (js "A-out")).
Proof.
  destruct (request_of (ls_apikey world_with_key) (worker_args hello)) as [e|req] eqn:E;
    [discriminate|].
  exact (@transport_outcome _ env_ok WorkerA (worker_args hello) world_with_key req E).
Defined.

(** C3 at a planner reply that leaves [taskB] out: the run stops after the
    planning phase. *)
Lemma rejected_plan_witness :
  phases (trace (snd (runAgentMode env_without_B hello world_with_key))) = [Planning] /\
  appended (trace (snd (runAgentMode env_without_B hello world_with_key)))
    = [user_message env_without_B hello None].
Proof.
  destruct (request_of (ls_apikey world_with_key)
              (planner_args (history_before world_with_key) hello
                 (user_message env_without_B hello (pendingImage world_with_key))))
    as [e|req] eqn:E; [discriminate|].
  assert (Hrej : plan_rejected (JStr plan_text_without_B)).
  { right. exists (JObj [(js "taskA", JStr (js "x"))]). split; [reflexivity|].
    right. reflexivity. }
  destruct (@rejected_plan_aborts _ env_without_B hello (JStr plan_text_without_B)
              world_with_key req eq_refl E eq_refl Hrej)
    as (t & Ht & _ & _ & Hph & _ & Hap).
  rewrite Ht. split; assumption.
Defined.



(** Against C4 as first stated: worker B's text ends with a line feed; the
    text sent to the synthesizer ends with [B-out], so it does not hold
    worker B's text as it is. *)
Lemma trailing_space_is_lost :
  fetch_settle (network env_ok WorkerA) = inr (JStr (js "A-out")) /\
  fetch_settle (network env_ok WorkerB) = inr (JStr (js "B-out" ++ nl)) /\
  exists a,
    In (Synthesizer, a) (calls (trace (snd (runAgentMode env_ok hello world_with_key)))) /\
    arg_newUserText a =
      JStr (label_A ++ nl ++ js "A-out" ++ nl ++ nl ++ label_B ++ nl ++ js "B-out") /\
    includes (label_A ++ nl ++ js "A-out" ++ nl ++ nl ++ label_B ++ nl ++ js "B-out")
             (js "B-out" ++ nl) = false.
Proof.
  split; [reflexivity|]. split; [reflexivity|].
  eexists. split; [|split].
  - vm_compute. do 3 right. left. reflexivity.
  - reflexivity.
  - vm_compute; reflexivity.
Qed.

(** Against C9 as first stated: the response is ok and its body is not JSON;
    the call throws. *)
Lemma ok_response_can_throw :
  network env_not_json Planner = NetResponse not_json /\
  ok not_json = true /\
  fst (fetchAPIBackground env_not_json Planner (worker_args hello) world_with_key)
    = inl (Rejection (js "Unexpected end of JSON input")).
Proof. repeat split; vm_compute; reflexivity. Qed.


(* ================================================================== *)
(** ** More sample runs *)

(** X1 at the call a worker makes with the key [k]. *)
Lemma request_endpoint_witness :
  exists req,
    request_of (Some (js "k")) (worker_args hello) = inr req /\
    url req = endpoint default_model (js "k") /\
    method req = js "POST".
Proof.
  destruct (request_of (Some (js "k")) (worker_args hello)) as [e|req] eqn:E;
    [discriminate|].
  exists req. split; [reflexivity|].
  destruct (@request_endpoint _ _ _ _ E) as (k & m & Hs & _ & Hm & _ & Hu & Hmeth & _).
  injection Hs as <-. vm_compute in Hm. injection Hm as <-. split; assumption.
Defined.

(** X3 at a call with three turns of history, a system prompt and a
    picture: five turns come before the final one, which holds the text and
    one more part. *)
Lemma request_contents_witness :
  exists req earlier img,
    request_of (Some (js "k")) sample_call = inr req /\
    contents req =
      earlier ++ [{| turn_role := js "user"; parts := TextPart (js "draw it") :: img |}] /\
    List.length earlier = 5%nat /\
    List.length img = 1%nat.
Proof.
  destruct (request_of (Some (js "k")) sample_call) as [e|req] eqn:E; [discriminate|].
  destruct (@request_contents_shape _ _ _ _ E)
    as (earlier & text & img & Hc & Ht & _ & Hi & Hl & _).
  exists req, earlier, img. split; [reflexivity|].
  vm_compute in Ht. injection Ht as <-.
  change (truthy (arg_imageBase64 sample_call)) with true in Hi.
  destruct Hi as (m & d & ->).
  split; [exact Hc|]. split; [exact Hl|reflexivity].
Defined.

(** X4 at the same call: the prompt comes first, tagged. *)
Lemma system_prompt_witness :
  exists req rest,
    request_of (Some (js "k")) sample_call = inr req /\
    contents req =
      {| turn_role := js "user";
         parts := [TextPart (js "[System Instructions] Be brief.")] |}
      :: {| turn_role := js "model"; parts := [TextPart (js "Understood.")] |}
      :: rest.
Proof.
  destruct (request_of (Some (js "k")) sample_call) as [e|req] eqn:E; [discriminate|].
  destruct (@system_prompt_opens_conversation _ _ _ _ E) as (hist & final & _ & H).
  change (truthy (arg_systemPrompt sample_call)) with true in H.
  destruct H as (sp & Hsp & Hc).
  vm_compute in Hsp. injection Hsp as <-.
  exists req, (hist ++ [final]). split; [reflexivity|exact Hc].
Defined.

(** X5 at the data URL of a PNG picture. *)
Lemma data_url_witness :
  image_parts (JStr png_url) = inr [InlineData (js "image/png") png_payload].
Proof.
  apply (@data_url_is_split _ (js "png") png_payload);
    [discriminate | reflexivity | vm_compute; discriminate].
Defined.

(** X6 at a bare payload. *)
Lemma raw_image_witness :
  image_parts (JStr png_payload) = inr [InlineData (js "image/jpeg") png_payload].
Proof.
  apply (@raw_image_is_jpeg _ png_payload); [discriminate | reflexivity].
Defined.

(** X7 at an image argument that is [true]. *)
Lemma non_string_image_witness :
  fst (fetchAPIBackground env_ok Planner
         {| arg_history := []; arg_newUserText := hello; arg_imageBase64 := JBool true;
            arg_systemPrompt := JNull; arg_modelOverride := JNull |} world_with_key)
    = inl (TypeErrorOf MatchNotAFunction).
Proof.
  destruct (@non_string_image_throws _ env_ok Planner
              {| arg_history := []; arg_newUserText := hello; arg_imageBase64 := JBool true;
                 arg_systemPrompt := JNull; arg_modelOverride := JNull |}
              world_with_key eq_refl ltac:(discriminate)) as (e & H & _).
  rewrite H. cbn [fst]. vm_compute in H. now injection H as <-.
Defined.

(** X8 at a reply with two candidates: the first part of the first is the
    answer. *)
Lemma first_candidate_witness :
  fetch_settle (NetResponse two_candidates) = inr (JStr (js "one")).
Proof.
  exact (@first_candidate_is_returned _ two_candidates _ _ _ _ _
           eq_refl eq_refl eq_refl eq_refl).
Defined.

(** X9 at a blocked reply. *)
Lemma no_candidate_witness :
  fetch_settle (NetResponse blocked) = inr (JStr []).
Proof.
  exact (@no_candidate_is_empty_text _ blocked _ eq_refl eq_refl (or_introl eq_refl)).
Defined.

(** X10 at the reply with two candidates: what is returned is truthy. *)
Lemma result_witness :
  JStr (js "one") = JStr [] \/ truthy (JStr (js "one")) = true.
Proof.
  exact (@result_is_text_or_truthy _ (NetResponse two_candidates) (JStr (js "one"))
           eq_refl).
Defined.

(** X11 at an id that the document does not hold. *)
Lemma unknown_id_witness :
  document (snd (updateTerminal (js "term_8") (js "> lost") true world_with_stale_bubble))
    = [other_bubble; stale_bubble; stale_bubble] /\
  document (snd (removeTerminal (js "term_8") world_with_stale_bubble))
    = [other_bubble; stale_bubble; stale_bubble].
Proof.
  exact (@unknown_id_is_ignored _ (js "term_8") (js "> lost") true
           world_with_stale_bubble eq_refl).
Defined.

(** X12 at a document with two bubbles of the same id. *)
Lemma first_match_witness :
  document (snd (updateTerminal (terminal_id env_ok) (js "> again") false
                   world_with_stale_bubble))
    = [other_bubble;
       {| tb_id := terminal_id env_ok; tb_text := js "> again"; tb_danger := true |};
       stale_bubble] /\
  document (snd (removeTerminal (terminal_id env_ok) world_with_stale_bubble))
    = [other_bubble; stale_bubble].
Proof.
  exact (@first_match_only _ (terminal_id env_ok) (js "> again") false
           world_with_stale_bubble [other_bubble] [stale_bubble] stale_bubble
           eq_refl eq_refl eq_refl).
Defined.

(** X15 at a document that holds a bubble of the id to come. *)
Lemma stale_bubble_witness :
  document (snd (removeTerminal (terminal_id env_ok)
                   (snd (createTerminalBubble env_ok world_with_stale_bubble))))
    = [other_bubble; stale_bubble; new_bubble (terminal_id env_ok)].
Proof.
  destruct (@stale_bubble_shadows_new _ env_ok (js "> x") false world_with_stale_bubble
              stale_bubble eq_refl) as (_ & _ & _ & H).
  exact H.
Defined.

(** X16 at an empty document. *)
Lemma created_bubble_witness :
  getElementById (terminal_id env_ok)
    (document (snd (createTerminalBubble env_ok world_with_key)))
    = Some (new_bubble (js "term_1001")) /\
  document (snd (removeTerminal (terminal_id env_ok)
                   (snd (updateTerminal (terminal_id env_ok) (js "> x") true
                           (snd (createTerminalBubble env_ok world_with_key))))))
    = [].
Proof.
  destruct (@created_bubble_round_trip _ env_ok (js "> x") true world_with_key eq_refl)
    as (_ & H1 & _ & H2).
  split; [exact H1|exact H2].
Defined.

(** X18 at the run with every call answered. *)
Lemma controls_witness :
  exists t,
    trace (snd (runAgentMode env_ok hello world_with_key)) =
      setup_events env_ok hello world_with_key ++ t
        ++ [EvStreaming false; EvSendDisabled false] /\
    send_disabled (replay (setup_events env_ok hello world_with_key ++ t) world_with_key)
      = true /\
    isStreaming (replay (setup_events env_ok hello world_with_key ++ t) world_with_key)
      = true.
Proof.
  destruct (@controls_stay_disabled _ env_ok hello world_with_key eq_refl)
    as (t & Ht & _ & H).
  exists t. split; [exact Ht|].
  apply (H t []). now rewrite app_nil_r.
Defined.

(** X19 at a run with a picture pending. *)
Lemma pending_image_witness :
  pendingImage (snd (runAgentMode env_ok hello world_with_image)) = None /\
  imageBase64 (user_message env_ok hello (Some sample_image)) = JStr png_payload.
Proof.
  destruct (@pending_image_is_consumed _ env_ok hello world_with_image eq_refl)
    as (H1 & H2 & _).
  split; [exact H1|exact (f_equal fst H2)].
Defined.

(** X23 at a world without a key. *)
Lemma run_without_key_witness :
  requests (trace (snd (runAgentMode env_ok hello world_without_key))) = [] /\
  In (EvToast (js "Agent Mode Error: No API key saved.") (js "error"))
     (trace (snd (runAgentMode env_ok hello world_without_key))).
Proof.
  rewrite (@run_without_key _ env_ok hello world_without_key eq_refl (or_introl eq_refl)).
  split; [reflexivity|]. vm_compute. do 8 right. left. reflexivity.
Defined.

(** X24 at the run whose plan lacks [taskB]: progress lines, then the
    error. *)
Lemma terminal_lines_witness :
  exists k,
    (2 <= k <= 4)%nat /\
    terminal_lines (trace (snd (runAgentMode env_without_B hello world_with_key))) =
      map (fun l => (l, false)) (firstn k progress_lines) ++
      [(js "> Error: Orchestrator response missing taskA or taskB.", true)].
Proof.
  destruct (@terminal_lines_in_order _ env_without_B hello world_with_key eq_refl)
    as (t & k & Ht & Hk & Hl & _).
  exists k. split; [exact Hk|].
  rewrite Ht. cbn [trace world_with_key app]. rewrite Hl.
  f_equal.
Defined.

(** X27 at a plan sent bare, with a line feed after it. *)
Lemma unfenced_reply_witness :
  cleanJson (plan_text ++ nl) = plan_text.
Proof.
  rewrite (@unfenced_reply_is_trimmed (plan_text ++ nl)) by (vm_compute; reflexivity).
  vm_compute. reflexivity.
Defined.

(** X29 at the plan between fences, each on a line of its own. *)
Lemma fenced_reply_witness :
  cleanJson fenced_reply = plan_text.
Proof.
  change (cleanJson fenced_reply)
    with (cleanJson (js "```json" ++ (nl ++ plan_text ++ nl) ++ js "```")).
  rewrite (@fenced_reply_is_unwrapped (nl ++ plan_text ++ nl)) by reflexivity.
  vm_compute. reflexivity.
Defined.
